(** * The data-quality dashboard's reshaping pipeline (data-app.py)

    The script reads a table of data-quality test results, keeps the rows
    whose [TEST_RESULT_VALUE] carries a serialized array of offenders,
    parses [TEST_PARAMETERS] into the columns TABLE / COLUMN / CRITERIA and
    expands every offender of every row into one output record.

    The development embeds
    - the Python values that flow through the script ([pyval]),
    - [json.loads] as a recursive-descent decoder ([json_loads]),
    - the three local functions [filter_conditions], [parse_query] and
      [expand_data], the frame operations that apply them
      ([load_and_process_data]) and the sidebar filter ([apply_filters]).

    Strings are byte strings holding the UTF-8 encoding of the Python text.
    Exceptions are results of an error monad.  A frame is the list of its
    rows, each row a finite map from column labels to cells; the frame
    operations keep cell values as they are (no dtype coercion).  Integers
    are unbounded and the decoder may nest as deep as the text does: the
    interpreter's limits on digits and on recursion are not modelled. *)

From Stdlib Require Import String Ascii ZArith List Bool Lia Permutation.
From stdpp Require Import gmap strings.
Import ListNotations.

Local Open Scope string_scope.
Local Open Scope Z_scope.

(** ** Python values *)

(** A float is kept as the decimal it was read from,
    [(-1)^neg * mant * 10^expo], or one of the non-finite constants. *)
Inductive pyfloat : Type :=
| FNaN
| FInf (neg : bool)
| FDec (neg : bool) (mant : N) (expo : Z).

#[warnings="-register-all"]
Inductive pyval : Type :=
| PNone
| PBool (b : bool)
| PInt (z : Z)
| PFloat (f : pyfloat)
| PStr (s : string)
| PList (l : list pyval)
| PDict (d : list (string * pyval)).

(** The exceptions the pipeline can raise.  [OutOfFuel] is the decoder
    running out of its recursion budget; [json_loads_fuel] shows the budget
    it is given is never exhausted. *)
Inductive exn : Type :=
| JSONDecodeError
| TypeError
| AttributeError
| KeyError
| ValueError
| OutOfFuel.

Inductive result (A : Type) : Type :=
| Ok (a : A)
| Err (e : exn).
Arguments Ok {A} a.
Arguments Err {A} e.

#[global] Instance result_ret : MRet result := fun A a => Ok a.
#[global] Instance result_bind : MBind result := fun A B f m =>
  match m with
  | Ok a => f a
  | Err e => Err e
  end.
#[global] Instance result_fmap : FMap result := fun A B f m =>
  match m with
  | Ok a => Ok (f a)
  | Err e => Err e
  end.

(** [for x in xs: f(x)], stopping at the first exception. *)
Fixpoint mapM {A B : Type} (f : A -> result B) (xs : list A) : result (list B) :=
  match xs with
  | [] => Ok []
  | x :: xs' =>
      match f x with
      | Ok y => match mapM f xs' with
                | Ok ys => Ok (y :: ys)
                | Err e => Err e
                end
      | Err e => Err e
      end
  end.

(** ** Dictionaries

    A [dict] keeps its keys in insertion order; storing under a key that is
    already there replaces the value and keeps the key's position. *)
Fixpoint dict_set (k : string) (v : pyval) (d : list (string * pyval))
  : list (string * pyval) :=
  match d with
  | [] => [(k, v)]
  | (k', v') :: d' =>
      if String.eqb k k' then (k, v) :: d' else (k', v') :: dict_set k v d'
  end.

Fixpoint dict_lookup (k : string) (d : list (string * pyval)) : option pyval :=
  match d with
  | [] => None
  | (k', v') :: d' => if String.eqb k k' then Some v' else dict_lookup k d'
  end.

(** [dict(pairs)] *)
Definition dict_of_pairs (pairs : list (string * pyval)) : list (string * pyval) :=
  fold_left (fun d kv => dict_set (fst kv) (snd kv) d) pairs [].

(** [obj.get(key, default)]: only a dict has the method. *)
Definition py_get (obj : pyval) (key : string) (default : pyval) : result pyval :=
  match obj with
  | PDict d => Ok (match dict_lookup key d with
                   | Some v => v
                   | None => default
                   end)
  | _ => Err AttributeError
  end.

(** ** Truth values *)

(** The double nearest to [mant * 10^expo] is zero exactly when the decimal
    is at most [2^-1075], half of the smallest subnormal. *)
Definition float_is_zero (f : pyfloat) : bool :=
  match f with
  | FNaN => false
  | FInf _ => false
  | FDec _ m e =>
      N.eqb m 0
      || (Z.ltb e 0 && Z.leb (Z.of_N m * 2 ^ 1075) (10 ^ (- e)))
  end.

Definition truthy (v : pyval) : bool :=
  match v with
  | PNone => false
  | PBool b => b
  | PInt z => negb (Z.eqb z 0)
  | PFloat f => negb (float_is_zero f)
  | PStr s => negb (String.eqb s EmptyString)
  | PList l => match l with [] => false | _ => true end
  | PDict d => match d with [] => false | _ => true end
  end.

(** ** Lexical helpers of the decoder *)

Definition is_ws (c : ascii) : bool :=
  match c with
  | " "%char | "009"%char | "010"%char | "013"%char => true
  | _ => false
  end.

(** [WHITESPACE.match(s, end).end()] *)
Fixpoint skip_ws (s : string) : string :=
  match s with
  | String c r => if is_ws c then skip_ws r else s
  | EmptyString => s
  end.

Definition is_digit (c : ascii) : bool :=
  let n := N_of_ascii c in (N.leb 48 n && N.leb n 57)%N.

Definition digit_val (c : ascii) : N := (N_of_ascii c - 48)%N.

(** The longest run of digits at the head of [s], and what follows it. *)
Fixpoint span_digits (s : string) : string * string :=
  match s with
  | String c r =>
      if is_digit c
      then let '(ds, r') := span_digits r in (String c ds, r')
      else (EmptyString, s)
  | EmptyString => (EmptyString, EmptyString)
  end.

Fixpoint digits_val_from (acc : N) (ds : string) : N :=
  match ds with
  | String c r => digits_val_from (acc * 10 + digit_val c)%N r
  | EmptyString => acc
  end.

Definition digits_val (ds : string) : N := digits_val_from 0%N ds.

Definition hex_val (c : ascii) : option N :=
  let n := N_of_ascii c in
  if (N.leb 48 n && N.leb n 57)%N then Some (n - 48)%N
  else if (N.leb 97 n && N.leb n 102)%N then Some (n - 87)%N
  else if (N.leb 65 n && N.leb n 70)%N then Some (n - 55)%N
  else None.

Definition hex4 (a b c d : ascii) : option N :=
  match hex_val a, hex_val b, hex_val c, hex_val d with
  | Some x, Some y, Some z, Some w => Some (((x * 16 + y) * 16 + z) * 16 + w)%N
  | _, _, _, _ => None
  end.

(** The escapes of the [BACKSLASH] table. *)
Definition simple_escape (c : ascii) : option ascii :=
  match c with
  | "034"%char => Some "034"%char
  | "\"%char => Some "\"%char
  | "/"%char => Some "/"%char
  | "b"%char => Some "008"%char
  | "f"%char => Some "012"%char
  | "n"%char => Some "010"%char
  | "r"%char => Some "013"%char
  | "t"%char => Some "009"%char
  | _ => None
  end.

(** A piece of a string literal: a character taken as it stands, or the
    code unit of a [\uXXXX] escape. *)
Inductive chunk : Type :=
| Raw (c : ascii)
| Uni (n : N).

(** [scanstring(s, end)], started after the opening quote: the pieces up to
    the closing quote and the text after it.  Strict mode: a literal
    control character is an error. *)
Fixpoint scanstring (s : string) : result (list chunk * string) :=
  match s with
  | EmptyString => Err JSONDecodeError
  | String c r =>
      if Ascii.eqb c "034" then Ok ([], r)
      else if Ascii.eqb c "\" then
        match r with
        | EmptyString => Err JSONDecodeError
        | String e r1 =>
            if Ascii.eqb e "u" then
              match r1 with
              | String h1 (String h2 (String h3 (String h4 r2))) =>
                  match hex4 h1 h2 h3 h4 with
                  | Some n =>
                      match scanstring r2 with
                      | Ok (cs, r') => Ok (Uni n :: cs, r')
                      | Err x => Err x
                      end
                  | None => Err JSONDecodeError
                  end
              | _ => Err JSONDecodeError
              end
            else
              match simple_escape e with
              | Some a =>
                  match scanstring r1 with
                  | Ok (cs, r') => Ok (Raw a :: cs, r')
                  | Err x => Err x
                  end
              | None => Err JSONDecodeError
              end
        end
      else if (N_of_ascii c <? 32)%N then Err JSONDecodeError
      else
        match scanstring r with
        | Ok (cs, r') => Ok (Raw c :: cs, r')
        | Err x => Err x
        end
  end.

Definition byte_of (n : N) : ascii := ascii_of_N n.

(** UTF-8 bytes of a code point (a lone surrogate gets the three-byte form). *)
Definition utf8 (n : N) : string :=
  (if n <? 128 then String (byte_of n) EmptyString
   else if n <? 2048 then
     String (byte_of (192 + n / 64))
       (String (byte_of (128 + n mod 64)) EmptyString)
   else if n <? 65536 then
     String (byte_of (224 + n / 4096))
       (String (byte_of (128 + (n / 64) mod 64))
          (String (byte_of (128 + n mod 64)) EmptyString))
   else
     String (byte_of (240 + n / 262144))
       (String (byte_of (128 + (n / 4096) mod 64))
          (String (byte_of (128 + (n / 64) mod 64))
             (String (byte_of (128 + n mod 64)) EmptyString))))%N.

Definition is_high_surrogate (n : N) : bool := (N.leb 55296 n && N.leb n 56319)%N.
Definition is_low_surrogate (n : N) : bool := (N.leb 56320 n && N.leb n 57343)%N.

(** The text of a literal: an escaped high surrogate directly followed by
    an escaped low surrogate is one code point. *)
Fixpoint chunks_text (cs : list chunk) : string :=
  match cs with
  | [] => EmptyString
  | Raw c :: cs' => String c (chunks_text cs')
  | Uni n :: cs' =>
      match cs' with
      | Uni n2 :: cs'' =>
          if is_high_surrogate n && is_low_surrogate n2
          then String.append
                 (utf8 (65536 + ((n - 55296) * 1024 + (n2 - 56320)))%N)
                 (chunks_text cs'')
          else String.append (utf8 n) (chunks_text cs')
      | _ => String.append (utf8 n) (chunks_text cs')
      end
  end.

(** ** Numbers

    An optional minus sign and an integer part, then an optional fraction
    and an optional exponent, as [NUMBER_RE] matches them. *)

(** The integer part: a lone [0], or a run of digits not starting with [0]. *)
Definition match_int_part (s : string) : option (string * string) :=
  match s with
  | String c r =>
      if Ascii.eqb c "0" then Some (String c EmptyString, r)
      else if is_digit c then Some (span_digits s)
      else None
  | EmptyString => None
  end.

(** The fraction, if a dot and at least one digit follow. *)
Definition match_frac (s : string) : string * string :=
  match s with
  | String c r =>
      if Ascii.eqb c "." then
        match span_digits r with
        | (EmptyString, _) => (EmptyString, s)
        | (ds, r') => (ds, r')
        end
      else (EmptyString, s)
  | EmptyString => (EmptyString, s)
  end.

(** An optional sign. *)
Definition match_sign (s : string) : bool * string :=
  match s with
  | String c r =>
      if Ascii.eqb c "-" then (true, r)
      else if Ascii.eqb c "+" then (false, r)
      else (false, s)
  | EmptyString => (false, s)
  end.

(** The exponent, if [e] or [E], an optional sign and at least one digit
    follow: [Some] of its value. *)
Definition match_exp (s : string) : option Z * string :=
  match s with
  | String c r =>
      if Ascii.eqb c "e" || Ascii.eqb c "E" then
        let '(neg, r1) := match_sign r in
        match span_digits r1 with
        | (EmptyString, _) => (None, s)
        | (ds, r') =>
            (Some (if neg then - Z.of_N (digits_val ds) else Z.of_N (digits_val ds)), r')
        end
      else (None, s)
  | EmptyString => (None, s)
  end.

(** An optional minus sign. *)
Definition match_minus (s : string) : bool * string :=
  match s with
  | String c r => if Ascii.eqb c "-" then (true, r) else (false, s)
  | EmptyString => (false, s)
  end.

Definition match_number (s : string) : option (pyval * string) :=
  let '(neg, s1) := match_minus s in
  match match_int_part s1 with
  | None => None
  | Some (ip, r1) =>
      let '(fp, r2) := match_frac r1 in
      let '(ex, r3) := match_exp r2 in
      match fp, ex with
      | EmptyString, None =>
          Some (PInt (if neg then - Z.of_N (digits_val ip) else Z.of_N (digits_val ip)), r3)
      | _, _ =>
          Some (PFloat (FDec neg (digits_val (String.append ip fp))
                          (match ex with Some e => e | None => 0 end
                           - Z.of_nat (String.length fp))), r3)
      end
  end.

(** [s] with [lit] removed from its head. *)
Fixpoint strip_prefix (lit s : string) : option string :=
  match lit with
  | EmptyString => Some s
  | String a lit' =>
      match s with
      | String b s' => if Ascii.eqb a b then strip_prefix lit' s' else None
      | EmptyString => None
      end
  end.

(** ** The decoder

    [scan_once] reads one value at the head of the text and returns it
    with the text that follows; [parse_array] and [parse_object] are the
    loops of [JSONArray] and [JSONObject], entered at the first item.
    [fuel] bounds the depth of the calls. *)

(** The constants [null], [true], [false]. *)
Definition match_constant (s : string) : option (pyval * string) :=
  match strip_prefix "null" s with
  | Some r => Some (PNone, r)
  | None =>
      match strip_prefix "true" s with
      | Some r => Some (PBool true, r)
      | None =>
          match strip_prefix "false" s with
          | Some r => Some (PBool false, r)
          | None => None
          end
      end
  end.

(** The constants [NaN], [Infinity], [-Infinity]. *)
Definition match_nonfinite (s : string) : option (pyval * string) :=
  match strip_prefix "NaN" s with
  | Some r => Some (PFloat FNaN, r)
  | None =>
      match strip_prefix "Infinity" s with
      | Some r => Some (PFloat (FInf false), r)
      | None =>
          match strip_prefix "-Infinity" s with
          | Some r => Some (PFloat (FInf true), r)
          | None => None
          end
      end
  end.

(** A value that is neither a string, an object nor an array. *)
Definition scan_atom (s : string) : result (pyval * string) :=
  match match_constant s with
  | Some res => Ok res
  | None =>
      match match_number s with
      | Some res => Ok res
      | None =>
          match match_nonfinite s with
          | Some res => Ok res
          | None => Err JSONDecodeError
          end
      end
  end.

Fixpoint scan_once (fuel : nat) (s : string) : result (pyval * string) :=
  match fuel with
  | O => Err OutOfFuel
  | S n =>
      match s with
      | EmptyString => Err JSONDecodeError
      | String c r =>
          if Ascii.eqb c "034" then
            match scanstring r with
            | Ok (cs, r') => Ok (PStr (chunks_text cs), r')
            | Err e => Err e
            end
          else if Ascii.eqb c "{" then
            match skip_ws r with
            | EmptyString => Err JSONDecodeError
            | String c1 r1 =>
                if Ascii.eqb c1 "}" then Ok (PDict [], r1)
                else if Ascii.eqb c1 "034" then
                  match parse_object n r1 with
                  | Ok (pairs, r') => Ok (PDict (dict_of_pairs pairs), r')
                  | Err e => Err e
                  end
                else Err JSONDecodeError
            end
          else if Ascii.eqb c "[" then
            match skip_ws r with
            | EmptyString => Err JSONDecodeError
            | String c1 r1 =>
                if Ascii.eqb c1 "]" then Ok (PList [], r1)
                else
                  match parse_array n (String c1 r1) with
                  | Ok (vs, r') => Ok (PList vs, r')
                  | Err e => Err e
                  end
            end
          else scan_atom s
      end
  end

with parse_array (fuel : nat) (s : string) : result (list pyval * string) :=
  match fuel with
  | O => Err OutOfFuel
  | S n =>
      match scan_once n s with
      | Err e => Err e
      | Ok (v, r) =>
          match skip_ws r with
          | EmptyString => Err JSONDecodeError
          | String c1 r1 =>
              if Ascii.eqb c1 "]" then Ok ([v], r1)
              else if Ascii.eqb c1 "," then
                match parse_array n (skip_ws r1) with
                | Ok (vs, r') => Ok (v :: vs, r')
                | Err e => Err e
                end
              else Err JSONDecodeError
          end
      end
  end

with parse_object (fuel : nat) (s : string) : result (list (string * pyval) * string) :=
  match fuel with
  | O => Err OutOfFuel
  | S n =>
      match scanstring s with
      | Err e => Err e
      | Ok (cs, r) =>
          match skip_ws r with
          | EmptyString => Err JSONDecodeError
          | String c1 r1 =>
              if Ascii.eqb c1 ":" then
                match scan_once n (skip_ws r1) with
                | Err e => Err e
                | Ok (v, r2) =>
                    match skip_ws r2 with
                    | EmptyString => Err JSONDecodeError
                    | String c2 r3 =>
                        if Ascii.eqb c2 "}" then Ok ([(chunks_text cs, v)], r3)
                        else if Ascii.eqb c2 "," then
                          match skip_ws r3 with
                          | EmptyString => Err JSONDecodeError
                          | String c3 r4 =>
                              if Ascii.eqb c3 "034" then
                                match parse_object n r4 with
                                | Ok (pairs, r') => Ok ((chunks_text cs, v) :: pairs, r')
                                | Err e => Err e
                                end
                              else Err JSONDecodeError
                          end
                        else Err JSONDecodeError
                    end
                end
              else Err JSONDecodeError
          end
      end
  end.

(** [JSONDecoder.decode]: leading blanks, one value, trailing blanks and
    nothing else. *)
Definition decode (s : string) : result pyval :=
  match scan_once (2 * String.length s + 1) (skip_ws s) with
  | Err e => Err e
  | Ok (v, r) =>
      match skip_ws r with
      | EmptyString => Ok v
      | _ => Err JSONDecodeError
      end
  end.

(** [json.loads(x)] for a cell [x]: only text can be decoded. *)
Definition json_loads (x : pyval) : result pyval :=
  match x with
  | PStr s => decode s
  | _ => Err TypeError
  end.

(** Text literals below are written with an apostrophe where the script
    has a double quote; [dq] puts the double quotes back. *)
Fixpoint dq (s : string) : string :=
  match s with
  | EmptyString => EmptyString
  | String c r => String (if Ascii.eqb c "'" then "034"%char else c) (dq r)
  end.

(** ** Frames

    A row is a finite map from column labels to cells and a frame the list
    of its rows, all over the same labels. *)

(** [row[label]] *)
Definition getitem (r : gmap string pyval) (label : string) : result pyval :=
  match r !! label with
  | Some v => Ok v
  | None => Err KeyError
  end.

(** [df[label]]: the column, one cell per row. *)
Definition column (df : list (gmap string pyval)) (label : string) : result (list pyval) :=
  mapM (fun r => getitem r label) df.

(** [df[mask]]: the rows whose mask entry is [True], in order. *)
Fixpoint boolean_index {A : Type} (df : list A) (mask : list bool) : list A :=
  match df, mask with
  | r :: df', b :: mask' =>
      if b then r :: boolean_index df' mask' else boolean_index df' mask'
  | _, _ => []
  end.

(** ** The three local functions of [load_and_process_data] *)

Definition sentinel : string := Eval cbv in dq "[{'OCCURRENCES'".

(** [isinstance(value, str) and value.startswith('[{"OCCURRENCES"')] *)
Definition filter_conditions (value : pyval) : bool :=
  match value with
  | PStr s => String.prefix sentinel s
  | _ => false
  end.

(** [parse_query(query)]: the list [[table, column, value]] as a triple. *)
Definition parse_query (query : pyval) : result (pyval * pyval * pyval) :=
  query_json ← json_loads query;
  main ← py_get query_json "TABLE_NAME_MAIN" (PBool false);
  table ← (if truthy main
           then py_get query_json "TABLE_NAME_MAIN" PNone
           else py_get query_json "TABLE_NAME" (PStr EmptyString));
  column ← py_get query_json "COLUMN_NAME" (PStr EmptyString);
  value ← py_get query_json "VALUE" (PStr EmptyString);
  Ok (table, column, value).

(** A byte that continues a UTF-8 sequence. *)
Definition is_continuation (c : ascii) : bool :=
  let n := N_of_ascii c in (N.leb 128 n && N.ltb n 192)%N.

Definition starts_with_continuation (s : string) : bool :=
  match s with
  | String c _ => is_continuation c
  | EmptyString => false
  end.

(** The characters of a text, each with all its bytes. *)
Fixpoint characters (s : string) : list string :=
  match s with
  | EmptyString => []
  | String c r =>
      match characters r with
      | ch :: chs =>
          if starts_with_continuation r then String c ch :: chs
          else String c EmptyString :: ch :: chs
      | [] => [String c EmptyString]
      end
  end.

(** The items a [for] loop draws from a value: the elements of a list, the
    keys of a dict, the characters of a string; anything else cannot be
    iterated. *)
Definition py_iter (v : pyval) : result (list pyval) :=
  match v with
  | PList l => Ok l
  | PDict d => Ok (map (fun kv => PStr (fst kv)) d)
  | PStr s => Ok (map PStr (characters s))
  | _ => Err TypeError
  end.

(** The dict built for one offender of a row. *)
Definition expand_offender (row : gmap string pyval) (offender : pyval) : result pyval :=
  table ← getitem row "TABLE";
  col ← getitem row "COLUMN";
  test_name ← getitem row "TEST_NAME";
  criteria ← getitem row "CRITERIA";
  offenders ← py_get offender "OFFENDERS" (PStr EmptyString);
  occurrences ← py_get offender "OCCURRENCES" (PInt 0);
  test_query ← getitem row "TEST_QUERY";
  Ok (PDict [("TABLE", table); ("COLUMN", col); ("TEST_NAME", test_name);
             ("CRITERIA", criteria); ("OFFENDERS", offenders);
             ("OCCURRENCES", occurrences); ("TEST_QUERY", test_query)]).

(** [expand_data(row)] *)
Definition expand_data (row : gmap string pyval) : result (list pyval) :=
  cell ← getitem row "TEST_RESULT_VALUE";
  parsed ← json_loads cell;
  offenders ← py_iter parsed;
  mapM (expand_offender row) offenders.

(** ** The frame operations of [load_and_process_data] *)

(** [df = df[df['TEST_RESULT_VALUE'].apply(filter_conditions)]] *)
Definition record_filter (df : list (gmap string pyval)) : result (list (gmap string pyval)) :=
  values ← column df "TEST_RESULT_VALUE";
  Ok (boolean_index df (map filter_conditions values)).

(** The three entries of each parsed descriptor, stored in the row under
    TABLE, COLUMN and CRITERIA (a column of that name is overwritten). *)
Fixpoint set_columns (df : list (gmap string pyval)) (parsed : list (pyval * pyval * pyval))
  : list (gmap string pyval) :=
  match df, parsed with
  | r :: df', (t, c, v) :: parsed' =>
      <["CRITERIA" := v]> (<["COLUMN" := c]> (<["TABLE" := t]> r)) :: set_columns df' parsed'
  | _, _ => []
  end.

(** [df[['TABLE', 'COLUMN', 'CRITERIA']] =
    df['TEST_PARAMETERS'].apply(parse_query).apply(pd.Series)].  On a frame
    without rows the two [apply] calls give an empty series, which has no
    three columns for the three labels: the assignment raises
    [ValueError]. *)
Definition assign_descriptors (df : list (gmap string pyval)) : result (list (gmap string pyval)) :=
  queries ← column df "TEST_PARAMETERS";
  parsed ← mapM parse_query queries;
  match df with
  | [] => Err ValueError
  | _ => Ok (set_columns df parsed)
  end.

(** [Series.explode()]: the items of every list, in order; an empty list
    leaves one missing value in its place. *)
Definition explode (lists : list (list pyval)) : list pyval :=
  flat_map (fun l => match l with
                     | [] => [PFloat FNaN]
                     | _ => l
                     end) lists.

(** [df.apply(expand_data, axis=1).explode().reset_index(drop=True)]: the
    list of records that [pd.DataFrame] receives. *)
Definition expand_frame (df : list (gmap string pyval)) : result (list pyval) :=
  lists ← mapM expand_data df;
  Ok (explode lists).

(** [load_and_process_data()], on the table [get_table()] returned: the
    records of the frame it returns. *)
Definition load_and_process_data (table : list (gmap string pyval)) : result (list pyval) :=
  df ← record_filter table;
  df ← assign_descriptors df;
  expand_frame df.

(** ** The sidebar filters (module level, after the frame is loaded)

    The frame holds one row per record; [df[label]] reads the label in
    every record.  The membership test [isin] compares values with the
    equality [py_eq] of the cells (value equality of Python objects). *)

Definition record_item (r : pyval) (label : string) : result pyval :=
  match r with
  | PDict d => match dict_lookup label d with
               | Some v => Ok v
               | None => Err KeyError
               end
  | _ => Err KeyError
  end.

Definition record_column (df : list pyval) (label : string) : result (list pyval) :=
  mapM (fun r => record_item r label) df.

Section SidebarFilters.

Variable py_eq : pyval -> pyval -> bool.

(** [series.isin(values)], for one cell *)
Definition isin (values : list pyval) (cell : pyval) : bool :=
  existsb (py_eq cell) values.

(** [if selected: df = df[df[label].isin(selected)]] *)
Definition select_dimension (label : string) (selected : list pyval) (df : list pyval)
  : result (list pyval) :=
  match selected with
  | [] => Ok df
  | _ =>
      cells ← record_column df label;
      Ok (boolean_index df (map (isin selected) cells))
  end.

Definition apply_filters
  (selected_table selected_column selected_test selected_criteria : list pyval)
  (df : list pyval) : result (list pyval) :=
  df ← select_dimension "TABLE" selected_table df;
  df ← select_dimension "COLUMN" selected_column df;
  df ← select_dimension "TEST_NAME" selected_test df;
  select_dimension "CRITERIA" selected_criteria df.

End SidebarFilters.

(** Equality of two text cells; other cells are told apart. *)
Definition text_eq (a b : pyval) : bool :=
  match a, b with
  | PStr x, PStr y => String.eqb x y
  | _, _ => false
  end.

(** ** Vocabulary of the statements *)

(** What one call of the decoder does with fuel [n] on text [s]: it
    consumes text, or reports a syntax error, or ran out of a budget that
    was at most [bound]. *)
Definition decoder_step {A : Type} (n bound : nat) (s : string)
  (res : result (A * string)) : Prop :=
  match res with
  | Ok (_, r) => (String.length r < String.length s)%nat
  | Err e => e = JSONDecodeError \/ (e = OutOfFuel /\ (n <= bound)%nat)
  end.

(** The mask entry of a row: its [TEST_RESULT_VALUE] passes
    [filter_conditions]. *)
Definition keeps (r : gmap string pyval) : bool :=
  match r !! "TEST_RESULT_VALUE" with
  | Some v => filter_conditions v
  | None => false
  end.

(** The resolution rule for TABLE in the words of the specification:
    [TABLE_NAME_MAIN] if present and truthy, else [TABLE_NAME], else the
    empty string. *)
Definition table_resolution (d : list (string * pyval)) : pyval :=
  let fallback := match dict_lookup "TABLE_NAME" d with
                  | Some t => t
                  | None => PStr EmptyString
                  end in
  match dict_lookup "TABLE_NAME_MAIN" d with
  | Some m => if truthy m then m else fallback
  | None => fallback
  end.

(** [d.get(key, default)] on the entries of a dict. *)
Definition lookup_default (key : string) (default : pyval) (d : list (string * pyval)) : pyval :=
  match dict_lookup key d with
  | Some v => v
  | None => default
  end.

(** The ExpandedRow of a row's fields and one offender object. *)
Definition expanded_row (table col test_name criteria test_query : pyval)
  (offender : list (string * pyval)) : pyval :=
  PDict [("TABLE", table); ("COLUMN", col); ("TEST_NAME", test_name);
         ("CRITERIA", criteria);
         ("OFFENDERS", lookup_default "OFFENDERS" (PStr EmptyString) offender);
         ("OCCURRENCES", lookup_default "OCCURRENCES" (PInt 0) offender);
         ("TEST_QUERY", test_query)].

Definition expanded_fields : list string :=
  ["TABLE"; "COLUMN"; "TEST_NAME"; "CRITERIA"; "OFFENDERS"; "OCCURRENCES"; "TEST_QUERY"].

(** A record with exactly the seven fields, in the order of the literal. *)
Definition is_expanded_row (r : pyval) : Prop :=
  exists d, r = PDict d /\ map fst d = expanded_fields.

(** [sum(cells)] for an addition [plus] of cells, from [0]. *)
Definition column_sum (plus : pyval -> pyval -> pyval) (cells : list pyval) : pyval :=
  fold_left plus cells (PInt 0).

(** Addition of two integer cells (other cells are left out of the total). *)
Definition int_plus (a b : pyval) : pyval :=
  match a, b with
  | PInt x, PInt y => PInt (x + y)
  | _, _ => a
  end.

(** The test one selection puts on a record: no selection lets every
    record through, otherwise the record's cell must be one of the
    selected values. *)
Definition dimension_ok (py_eq : pyval -> pyval -> bool) (label : string)
  (selected : list pyval) (r : pyval) : bool :=
  match selected with
  | [] => true
  | _ => match record_item r label with
         | Ok cell => isin py_eq selected cell
         | Err _ => false
         end
  end.

(** The rows used in the examples. *)
Definition source_row (test_name test_parameters test_result_value : string)
  : gmap string pyval :=
  {[ "TEST_NAME" := PStr test_name;
     "TEST_PARAMETERS" := PStr (dq test_parameters);
     "TEST_RESULT_VALUE" := PStr (dq test_result_value) ]}.

Definition not_null_row : gmap string pyval :=
  source_row "not_null"
    "{'TABLE_NAME':'orders','COLUMN_NAME':'id','VALUE':null}"
    "[{'OCCURRENCES':2,'OFFENDERS':'row5,row9'}]".

(** A frame of three rows: one with offenders, one with another text, one
    with a missing value. *)
Definition mixed_frame : list (gmap string pyval) :=
  [ not_null_row;
    source_row "row_count" "{'TABLE_NAME':'orders'}" "passed";
    <["TEST_RESULT_VALUE" := PFloat FNaN]> (source_row "unique" "{}" "x") ].

(** A row as the Offender Expander receives it: the descriptor columns are
    set and [TEST_RESULT_VALUE] holds the given text. *)
Definition expander_input (table col test_name criteria test_query : pyval)
  (value : string) : gmap string pyval :=
  {[ "TABLE" := table; "COLUMN" := col; "TEST_NAME" := test_name;
     "CRITERIA" := criteria; "TEST_QUERY" := test_query;
     "TEST_RESULT_VALUE" := PStr (dq value) ]}.

(** An expander input with two offenders, the second without keys. *)
Definition two_offender_row : gmap string pyval :=
  expander_input (PStr "orders") (PStr "id") (PStr "not_null") PNone
    (PStr "SELECT id FROM orders") "[{'OCCURRENCES': 1}, {}]".

(** An expander input whose array holds an element that is not an object. *)
Definition non_object_row : gmap string pyval :=
  expander_input (PStr "orders") (PStr "id") (PStr "not_null") PNone
    (PStr "SELECT id FROM orders") "[{'OCCURRENCES': 3}, 5]".

(** The row of the end-to-end scenario, in a table that has a
    [TEST_QUERY] column. *)
Definition not_null_row_with_query : gmap string pyval :=
  <["TEST_QUERY" := PStr "SELECT id FROM orders"]> not_null_row.

(** The cell of a row under [label] is text that [json.loads] rejects. *)
Definition malformed (r : gmap string pyval) (label : string) : Prop :=
  exists x, r !! label = Some x /\ json_loads x = Err JSONDecodeError.

(** The columns of the input table that the pass reads. *)
Definition input_labels : list string :=
  ["TEST_RESULT_VALUE"; "TEST_PARAMETERS"; "TEST_NAME"; "TEST_QUERY"].

(** A row with the three descriptor columns set. *)
Definition with_descriptor (t c v : pyval) (r : gmap string pyval) : gmap string pyval :=
  <["CRITERIA" := v]> (<["COLUMN" := c]> (<["TABLE" := t]> r)).

(** A table with one row of offenders and one row that fails the filter
    and whose [TEST_PARAMETERS] is not JSON. *)
Definition table_with_unparsed_row : list (gmap string pyval) :=
  [ not_null_row_with_query;
    <["TEST_QUERY" := PStr "SELECT 1"]> (source_row "row_count" "not json" "passed") ].


(** The labels [expand_data] reads from a row. *)
Definition expander_labels : list string :=
  ["TEST_RESULT_VALUE"; "TABLE"; "COLUMN"; "TEST_NAME"; "CRITERIA"; "TEST_QUERY"].

(** Two ExpandedRows, one for each of two tables. *)
Definition orders_record : pyval :=
  expanded_row (PStr "orders") (PStr "id") (PStr "not_null") PNone
    (PStr "SELECT id FROM orders") [("OCCURRENCES", PInt 2)].

Definition customers_record : pyval :=
  expanded_row (PStr "customers") (PStr "email") (PStr "unique") PNone
    (PStr "SELECT email FROM customers") [("OCCURRENCES", PInt 1)].

(** The test the four selections put on a record together. *)
Definition selected (py_eq : pyval -> pyval -> bool)
  (selected_table selected_column selected_test selected_criteria : list pyval)
  (r : pyval) : bool :=
  dimension_ok py_eq "TABLE" selected_table r
  && dimension_ok py_eq "COLUMN" selected_column r
  && dimension_ok py_eq "TEST_NAME" selected_test r
  && dimension_ok py_eq "CRITERIA" selected_criteria r.

(** A table whose only row passes the filter and has a [TEST_PARAMETERS]
    that is not JSON. *)
Definition table_with_bad_parameters : list (gmap string pyval) :=
  [ <["TEST_PARAMETERS" := PStr "not json"]> not_null_row_with_query ].

(** ** The pass, one row at a time

    What the three stages do to one row that passed the filter: parse its
    descriptor, store it, expand the offenders. *)
Definition process_row (r : gmap string pyval) : result (list pyval) :=
  query ← getitem r "TEST_PARAMETERS";
  descriptor ← parse_query query;
  expand_data (with_descriptor (fst (fst descriptor)) (snd (fst descriptor))
                 (snd descriptor) r).


(** The ExpandedRows of such a row. *)
Definition row_records (dq : list (string * pyval)) (n tq : pyval)
  (offs : list (list (string * pyval))) : list pyval :=
  map (expanded_row (table_resolution dq)
         (lookup_default "COLUMN_NAME" (PStr EmptyString) dq) n
         (lookup_default "VALUE" (PStr EmptyString) dq) tq) offs.

(** The last value stored under [key] in a list of pairs. *)
Definition last_binding (key : string) (pairs : list (string * pyval)) : option pyval :=
  dict_lookup key (rev pairs).

(** ** The sidebar options (lines 68 to 75)

    [Series.unique()] keeps the first occurrence of every value, in order;
    it files the values in a hash table, which takes no list and no dict. *)
Definition hashable (v : pyval) : bool :=
  match v with
  | PList _ | PDict _ => false
  | _ => true
  end.

Section HashTable.

Context {A : Type}.
Variable eq : A -> A -> bool.

Definition unique_add (seen : list A) (x : A) : list A :=
  if existsb (eq x) seen then seen else seen ++ [x].

Definition unique_by (xs : list A) : list A :=
  fold_left unique_add xs [].

End HashTable.

Section SidebarOptions.

Variable py_eq : pyval -> pyval -> bool.

(** [series.unique()] *)
Definition unique (cells : list pyval) : result (list pyval) :=
  if forallb hashable cells then Ok (unique_by py_eq cells) else Err TypeError.

(** The options of one multiselect: [df[label].unique()]. *)
Definition options (label : string) (df : list pyval) : result (list pyval) :=
  cells ← record_column df label;
  unique cells.

(** Lines 68 to 85: the four option lists are computed, the user's
    selections come back from the widgets, the reset button empties them,
    and the filters are applied. *)
Definition sidebar (reset : bool)
  (selected_table selected_column selected_test selected_criteria : list pyval)
  (df : list pyval) : result (list pyval) :=
  _ ← options "TABLE" df;
  _ ← options "COLUMN" df;
  _ ← options "TEST_NAME" df;
  _ ← options "CRITERIA" df;
  if reset then apply_filters py_eq [] [] [] [] df
  else apply_filters py_eq selected_table selected_column selected_test
         selected_criteria df.

End SidebarOptions.

(** ** The grouped views (lines 106, 129, 159 and 168)

    [df.groupby(labels)['OCCURRENCES'].sum()]: the rows are keyed by their
    cells under [labels]; a row with a missing value in its key is left
    out; the distinct keys come in sorted order, each with the sum of the
    OCCURRENCES of its rows.  The equality of keys [key_eq], their sorting
    [sort_keys] and the addition [plus] of the column are those of the
    frame's values. *)
Definition is_na (v : pyval) : bool :=
  match v with
  | PNone => true
  | PFloat FNaN => true
  | _ => false
  end.

Section GroupBy.

Variable key_eq : list pyval -> list pyval -> bool.
Variable sort_keys : list (list pyval) -> list (list pyval).
Variable plus : pyval -> pyval -> pyval.

(** The key of a record and its OCCURRENCES cell. *)
Definition keyed_cell (labels : list string) (r : pyval) : result (list pyval * pyval) :=
  key ← mapM (record_item r) labels;
  cell ← record_item r "OCCURRENCES";
  Ok (key, cell).

(** The keyed cells that take part in the grouping. *)
Definition grouped_cells (labels : list string) (df : list pyval)
  : result (list (list pyval * pyval)) :=
  keyed ← mapM (keyed_cell labels) df;
  if forallb (fun kc => forallb hashable (fst kc)) keyed
  then Ok (List.filter (fun kc => negb (existsb is_na (fst kc))) keyed)
  else Err TypeError.

(** The cells of the group of [key]. *)
Definition group_of (keyed : list (list pyval * pyval)) (key : list pyval) : list pyval :=
  map snd (List.filter (fun kc => key_eq (fst kc) key) keyed).

(** The groups: every distinct key with the cells of its rows. *)
Definition groupby (labels : list string) (df : list pyval)
  : result (list (list pyval * list pyval)) :=
  keyed ← grouped_cells labels df;
  Ok (map (fun key => (key, group_of keyed key))
        (sort_keys (unique_by key_eq (map fst keyed)))).

(** [df.groupby(labels)['OCCURRENCES'].sum().reset_index()] *)
Definition groupby_sum (labels : list string) (df : list pyval)
  : result (list (list pyval * pyval)) :=
  groups ← groupby labels df;
  Ok (map (fun g => (fst g, column_sum plus (snd g))) groups).

Definition test_occurrences (df : list pyval) := groupby_sum ["TEST_NAME"] df.

Definition detailed_data (df : list pyval) :=
  groupby_sum ["TEST_NAME"; "TABLE"; "COLUMN"] df.

Definition summary_df (df : list pyval) :=
  groupby_sum ["TABLE"; "COLUMN"; "TEST_NAME"; "CRITERIA"] df.

End GroupBy.

(** ** The view toggle (lines 88, 104 and 124 to 152)

    [view_mode] lives in the session state; [None] is a session that has
    none yet.  One interaction renders the view of the current mode;
    [clicked] tells whether the button of that view ("Detail" in the
    overview, "Overview" in the detail view) was pressed, which stores the
    other mode and reruns the script. *)
Definition init_view_mode (session : option string) : string :=
  match session with
  | None => "overview"
  | Some mode => mode
  end.

Definition render (session : option string) (clicked : bool) : option string :=
  let view_mode := init_view_mode session in
  if String.eqb view_mode "overview"
  then Some (if clicked then "detail" else view_mode)
  else Some (if clicked then "overview" else view_mode).

(** A session: the interactions in order, from a state. *)
Definition run_session (session : option string) (clicks : list bool) : option string :=
  fold_left render clicks session.

(** Equality of two keys of text cells. *)
Definition text_key_eq (a b : list pyval) : bool :=
  (Nat.eqb (List.length a) (List.length b))
  && forallb (fun ab => text_eq (fst ab) (snd ab)) (combine a b).

(** What the pass needs to know of a row: the object of its descriptor,
    its test name and test query, and the objects of its offender array. *)
Record row_facts : Type := {
  facts_parameters : list (string * pyval);
  facts_test_name : pyval;
  facts_test_query : pyval;
  facts_offenders : list (list (string * pyval))
}.


Definition records_of (f : row_facts) : list pyval :=
  row_records (facts_parameters f) (facts_test_name f) (facts_test_query f)
    (facts_offenders f).

(** The labels [expand_data] reads besides [TEST_RESULT_VALUE]. *)
Definition copied_labels : list string :=
  ["TABLE"; "COLUMN"; "TEST_NAME"; "CRITERIA"; "TEST_QUERY"].


(** The facts of the row of the end-to-end scenario. *)
Definition not_null_facts : row_facts :=
  {| facts_parameters :=
       [("TABLE_NAME", PStr "orders"); ("COLUMN_NAME", PStr "id"); ("VALUE", PNone)];
     facts_test_name := PStr "not_null";
     facts_test_query := PStr "SELECT id FROM orders";
     facts_offenders := [[("OCCURRENCES", PInt 2); ("OFFENDERS", PStr "row5,row9")]] |}.

(** The four columns the sidebar offers. *)
Definition dimensions : list string := ["TABLE"; "COLUMN"; "TEST_NAME"; "CRITERIA"].

(** Equality of two cells that are not containers: the same constant, the
    same number as read, the same text. *)
Definition atom_eq (a b : pyval) : bool :=
  match a, b with
  | PNone, PNone => true
  | PBool x, PBool y => Bool.eqb x y
  | PInt x, PInt y => Z.eqb x y
  | PFloat FNaN, PFloat FNaN => true
  | PFloat (FInf x), PFloat (FInf y) => Bool.eqb x y
  | PFloat (FDec s m e), PFloat (FDec s' m' e') =>
      Bool.eqb s s' && N.eqb m m' && Z.eqb e e'
  | PStr x, PStr y => String.eqb x y
  | _, _ => false
  end.

(** No entry of the list equals an earlier one. *)
Definition distinct_by {A : Type} (eq : A -> A -> bool) (l : list A) : Prop :=
  forall l1 x l2, l = (l1 ++ x :: l2)%list -> existsb (eq x) l1 = false.

(** Three ExpandedRows, two of them for the table "orders". *)
Definition three_records : list pyval :=
  [orders_record; customers_record; orders_record].

(** An ExpandedRow whose CRITERIA is a list, as a [VALUE] that is a JSON
    array gives. *)
Definition list_criteria_record : pyval :=
  PDict [("TABLE", PStr "orders"); ("COLUMN", PStr "status"); ("TEST_NAME", PStr "in_set");
         ("CRITERIA", PList [PStr "open"; PStr "closed"]); ("OFFENDERS", PStr "row3");
         ("OCCURRENCES", PInt 1); ("TEST_QUERY", PStr "SELECT status FROM orders")].

(** Equality of two keys, cell by cell. *)
Fixpoint atom_key_eq (a b : list pyval) : bool :=
  match a, b with
  | [], [] => true
  | x :: a', y :: b' => atom_eq x y && atom_key_eq a' b'
  | _, _ => false
  end.

(** The key of a keyed cell has no missing value. *)
Definition key_present (kc : list pyval * pyval) : bool :=
  negb (existsb is_na (fst kc)).

(** An integer cell. *)
Definition is_int (v : pyval) : Prop := exists z, v = PInt z.

(** ExpandedRows with a CRITERIA that is text. *)
Definition orders_open : pyval :=
  expanded_row (PStr "orders") (PStr "status") (PStr "in_set") (PStr "open")
    (PStr "SELECT status FROM orders") [("OCCURRENCES", PInt 2)].

Definition orders_open_again : pyval :=
  expanded_row (PStr "orders") (PStr "status") (PStr "in_set") (PStr "open")
    (PStr "SELECT status FROM orders") [("OCCURRENCES", PInt 5)].

Definition customers_open : pyval :=
  expanded_row (PStr "customers") (PStr "status") (PStr "in_set") (PStr "open")
    (PStr "SELECT status FROM customers") [("OCCURRENCES", PInt 4)].

Definition grouped_frame : list pyval :=
  [orders_open; customers_open; orders_open_again; orders_record].

(** ** The metrics (lines 97 to 100)

    [df[label].nunique()]: the number of distinct values of the column,
    missing values left out. *)
Definition nunique (py_eq : pyval -> pyval -> bool) (label : string) (df : list pyval)
  : result nat :=
  uniques ← options py_eq label df;
  Ok (List.length (List.filter (fun v => negb (is_na v)) uniques)).

(** * Properties *)

(** ** The error monad *)

Lemma mapM_Ok_map {A B : Type} (f : A -> result B) (g : A -> B) (xs : list A) :
  (forall x, In x xs -> f x = Ok (g x)) -> mapM f xs = Ok (map g xs).
Proof.
  induction xs as [|x xs IH]; intros H; simpl; [reflexivity|].
  rewrite (H x (or_introl eq_refl)), IH; [reflexivity|].
  intros y Hy. apply H. now right.
Qed.

Lemma mapM_Ok_Forall2 {A B : Type} (f : A -> result B) (xs : list A) (ys : list B) :
  mapM f xs = Ok ys -> Forall2 (fun x y => f x = Ok y) xs ys.
Proof.
  revert ys. induction xs as [|x xs IH]; intros ys H; simpl in H.
  - injection H as <-. constructor.
  - destruct (f x) as [y|e] eqn:Hx; [|discriminate].
    destruct (mapM f xs) as [ys'|e]; [|discriminate].
    injection H as <-. constructor; [exact Hx|]. now apply IH.
Qed.

Lemma mapM_Ok_length {A B : Type} (f : A -> result B) (xs : list A) (ys : list B) :
  mapM f xs = Ok ys -> List.length ys = List.length xs.
Proof.
  intros H. apply mapM_Ok_Forall2 in H.
  induction H; simpl; congruence.
Qed.

Lemma mapM_Err_In {A B : Type} (f : A -> result B) (xs : list A) (e : exn) :
  mapM f xs = Err e -> exists x, In x xs /\ f x = Err e.
Proof.
  induction xs as [|x xs IH]; simpl; intros H; [discriminate|].
  destruct (f x) as [y|e'] eqn:Hx.
  - destruct (mapM f xs) as [ys|e'']; [discriminate|].
    injection H as ->. destruct (IH eq_refl) as (x' & Hin & Hx').
    exists x'. split; [now right | exact Hx'].
  - injection H as ->. exists x. split; [now left | exact Hx].
Qed.

Lemma mapM_In_Err {A B : Type} (f : A -> result B) (xs : list A) (x : A) (e : exn) :
  In x xs -> f x = Err e -> exists e', mapM f xs = Err e'.
Proof.
  induction xs as [|y xs IH]; simpl; intros Hin Hx; [contradiction|].
  destruct (f y) as [z|e1] eqn:Hy; [|eauto].
  destruct Hin as [->|Hin]; [congruence|].
  destruct (IH Hin Hx) as [e' ->]. eauto.
Qed.

Local Close Scope Z_scope.

(** ** The decoder consumes text and never exhausts its fuel *)

Lemma skip_ws_length (s : string) : String.length (skip_ws s) <= String.length s.
Proof.
  induction s as [|c r IH]; simpl; [lia|].
  destruct (is_ws c); simpl; lia.
Qed.

Lemma span_digits_length (s ds r : string) :
  span_digits s = (ds, r) -> String.length ds + String.length r = String.length s.
Proof.
  revert ds r. induction s as [|c s IH]; simpl; intros ds r H.
  - injection H as <- <-. reflexivity.
  - destruct (is_digit c).
    + destruct (span_digits s) as [ds' r'] eqn:E. injection H as <- <-.
      simpl. specialize (IH _ _ eq_refl). lia.
    + injection H as <- <-. reflexivity.
Qed.

Lemma strip_prefix_length (lit s r : string) :
  strip_prefix lit s = Some r -> String.length s = String.length lit + String.length r.
Proof.
  revert s. induction lit as [|a lit IH]; simpl; intros s H.
  - now injection H as ->.
  - destruct s as [|b s]; [discriminate|].
    destruct (Ascii.eqb a b); [|discriminate].
    simpl. now rewrite (IH _ H).
Qed.

Lemma scanstring_length (s : string) (cs : list chunk) (r : string) :
  scanstring s = Ok (cs, r) -> String.length r < String.length s.
Proof.
  assert (Hle : String.length s <= String.length s) by lia.
  revert Hle. generalize (String.length s) at 2. intros n.
  revert s cs r.
  induction n as [|n IH]; intros s cs r Hle H.
  - destruct s; simpl in *; [discriminate | lia].
  - destruct s as [|c s]; [discriminate|]. simpl in H, Hle.
    destruct (Ascii.eqb c "034"); [injection H as <- <-; simpl; lia|].
    destruct (Ascii.eqb c "\").
    + destruct s as [|e s1]; [discriminate|].
      destruct (Ascii.eqb e "u").
      * destruct s1 as [|h1 [|h2 [|h3 [|h4 s2]]]]; try discriminate.
        destruct (hex4 h1 h2 h3 h4); [|discriminate].
        destruct (scanstring s2) as [[cs' r']|] eqn:E; [|discriminate].
        injection H as <- <-. simpl in Hle.
        assert (String.length r' < String.length s2) by (eapply IH; [lia | exact E]).
        simpl. lia.
      * destruct (simple_escape e); [|discriminate].
        destruct (scanstring s1) as [[cs' r']|] eqn:E; [|discriminate].
        injection H as <- <-. simpl in Hle.
        assert (String.length r' < String.length s1) by (eapply IH; [lia | exact E]).
        simpl. lia.
    + destruct (N_of_ascii c <? 32)%N; [discriminate|].
      destruct (scanstring s) as [[cs' r']|] eqn:E; [|discriminate].
      injection H as <- <-.
      assert (String.length r' < String.length s) by (eapply IH; [lia | exact E]).
      simpl. lia.
Qed.

Lemma scanstring_Err (s : string) (e : exn) :
  scanstring s = Err e -> e = JSONDecodeError.
Proof.
  assert (Hle : String.length s <= String.length s) by lia.
  revert Hle. generalize (String.length s) at 2. intros n.
  revert s.
  induction n as [|n IH]; intros s Hle H.
  - destruct s; simpl in *; [congruence | lia].
  - destruct s as [|c s]; [simpl in H; congruence|]. simpl in H, Hle.
    destruct (Ascii.eqb c "034"); [discriminate|].
    destruct (Ascii.eqb c "\").
    + destruct s as [|e0 s1]; [congruence|].
      destruct (Ascii.eqb e0 "u").
      * destruct s1 as [|h1 [|h2 [|h3 [|h4 s2]]]]; try congruence.
        destruct (hex4 h1 h2 h3 h4); [|congruence].
        destruct (scanstring s2) as [[cs' r']|e1] eqn:E; [discriminate|].
        injection H as <-. simpl in Hle. apply (IH s2); [lia | exact E].
      * destruct (simple_escape e0); [|congruence].
        destruct (scanstring s1) as [[cs' r']|e1] eqn:E; [discriminate|].
        injection H as <-. simpl in Hle. apply (IH s1); [lia | exact E].
    + destruct (N_of_ascii c <? 32)%N; [congruence|].
      destruct (scanstring s) as [[cs' r']|e1] eqn:E; [discriminate|].
      injection H as <-. apply (IH s); [lia | exact E].
Qed.

Lemma match_int_part_length (s ip r : string) :
  match_int_part s = Some (ip, r) -> String.length r < String.length s.
Proof.
  destruct s as [|c s]; simpl; [discriminate|].
  destruct (Ascii.eqb c "0"); [intros H; injection H as <- <-; simpl; lia|].
  destruct (is_digit c); [|discriminate].
  destruct (span_digits s) as [ds r'] eqn:E. intros H. injection H as <- <-.
  apply span_digits_length in E. simpl. lia.
Qed.

Lemma match_frac_length (s fp r : string) :
  match_frac s = (fp, r) -> String.length r <= String.length s.
Proof.
  destruct s as [|c s]; simpl; [intros H; injection H as <- <-; simpl; lia|].
  destruct (Ascii.eqb c "."); [|intros H; injection H as <- <-; simpl; lia].
  destruct (span_digits s) as [ds r'] eqn:E. apply span_digits_length in E.
  destruct ds; intros H; injection H as <- <-; simpl in *; lia.
Qed.

Lemma match_sign_length (s : string) (b : bool) (r : string) :
  match_sign s = (b, r) -> String.length r <= String.length s.
Proof.
  destruct s as [|c s]; simpl; [intros H; injection H as <- <-; simpl; lia|].
  destruct (Ascii.eqb c "-"); [intros H; injection H as <- <-; simpl; lia|].
  destruct (Ascii.eqb c "+"); intros H; injection H as <- <-; simpl; lia.
Qed.

Lemma match_exp_length (s : string) (ex : option Z) (r : string) :
  match_exp s = (ex, r) -> String.length r <= String.length s.
Proof.
  destruct s as [|c s]; simpl; [intros H; injection H as <- <-; simpl; lia|].
  destruct (Ascii.eqb c "e" || Ascii.eqb c "E"); [|intros H; injection H as <- <-; simpl; lia].
  destruct (match_sign s) as [neg r1] eqn:Es. apply match_sign_length in Es.
  destruct (span_digits r1) as [ds r'] eqn:E. apply span_digits_length in E.
  destruct ds; intros H; injection H as <- <-; simpl in *; lia.
Qed.

Lemma match_minus_length (s : string) (b : bool) (r : string) :
  match_minus s = (b, r) -> String.length r <= String.length s.
Proof.
  destruct s as [|c s]; simpl; [intros H; injection H as <- <-; simpl; lia|].
  destruct (Ascii.eqb c "-"); intros H; injection H as <- <-; simpl; lia.
Qed.

Lemma match_number_length (s : string) (v : pyval) (r : string) :
  match_number s = Some (v, r) -> String.length r < String.length s.
Proof.
  unfold match_number.
  destruct (match_minus s) as [neg s1] eqn:Em. apply match_minus_length in Em.
  destruct (match_int_part s1) as [[ip r1]|] eqn:Ei; [|discriminate].
  apply match_int_part_length in Ei.
  destruct (match_frac r1) as [fp r2] eqn:Ef. apply match_frac_length in Ef.
  destruct (match_exp r2) as [ex r3] eqn:Ee. apply match_exp_length in Ee.
  destruct fp, ex; intros H; injection H as <- <-; lia.
Qed.

Lemma scan_atom_length (s : string) (v : pyval) (r : string) :
  scan_atom s = Ok (v, r) -> String.length r < String.length s.
Proof.
  unfold scan_atom, match_constant, match_nonfinite.
  repeat match goal with
         | |- context [strip_prefix ?l s] =>
             let E := fresh "E" in
             destruct (strip_prefix l s) eqn:E;
             [apply strip_prefix_length in E; simpl in E;
              intros H; injection H as <- <-; lia|]
         end.
  destruct (match_number s) as [[v' r']|] eqn:Enum.
  - apply match_number_length in Enum. intros H. injection H as <- <-. lia.
  - repeat match goal with
           | |- context [strip_prefix ?l s] =>
               let E := fresh "E" in
               destruct (strip_prefix l s) eqn:E;
               [apply strip_prefix_length in E; simpl in E;
                intros H; injection H as <- <-; lia|]
           end.
    discriminate.
Qed.

Lemma scan_atom_Err (s : string) (e : exn) :
  scan_atom s = Err e -> e = JSONDecodeError.
Proof.
  unfold scan_atom.
  destruct (match_constant s); [discriminate|].
  destruct (match_number s); [discriminate|].
  destruct (match_nonfinite s); [discriminate|].
  congruence.
Qed.

(** The length of the text left after blanks, as a fact about [r]. *)
Ltac ws_length r H :=
  let L := fresh "Hws" in
  pose proof (skip_ws_length r) as L; rewrite H in L; simpl in L.

Lemma decoder_steps (n : nat) :
  (forall s, decoder_step n (2 * String.length s) s (scan_once n s))
  /\ (forall s, decoder_step n (2 * String.length s + 1) s (parse_array n s))
  /\ (forall s, decoder_step n (2 * String.length s + 1) s (parse_object n s)).
Proof.
  induction n as [|n (IHs & IHa & IHo)].
  - repeat split; intros s; simpl; right; (split; [reflexivity | lia]).
  - repeat split; intros s.
    + (* scan_once *)
      destruct s as [|c r]; simpl; [now left|].
      destruct (Ascii.eqb c "034").
      { destruct (scanstring r) as [[cs r']|e] eqn:E; simpl.
        - apply scanstring_length in E. lia.
        - left. eapply scanstring_Err, E. }
      destruct (Ascii.eqb c "{").
      { destruct (skip_ws r) as [|c1 r1] eqn:Ews; simpl; [now left|].
        ws_length r Ews.
        destruct (Ascii.eqb c1 "}"); simpl; [lia|].
        destruct (Ascii.eqb c1 "034"); simpl; [|now left].
        specialize (IHo r1).
        destruct (parse_object n r1) as [[ps r']|e]; simpl in *; [lia|].
        destruct IHo as [->|[-> Hn]]; [now left | right; split; [reflexivity | lia]]. }
      destruct (Ascii.eqb c "[").
      { destruct (skip_ws r) as [|c1 r1] eqn:Ews; simpl; [now left|].
        ws_length r Ews.
        destruct (Ascii.eqb c1 "]"); simpl; [lia|].
        specialize (IHa (String c1 r1)).
        destruct (parse_array n (String c1 r1)) as [[vs r']|e]; simpl in *; [lia|].
        destruct IHa as [->|[-> Hn]]; [now left | right; split; [reflexivity | lia]]. }
      destruct (scan_atom (String c r)) as [[v r']|e] eqn:E; simpl.
      * apply scan_atom_length in E. simpl in E. lia.
      * left. eapply scan_atom_Err, E.
    + (* parse_array *)
      simpl. specialize (IHs s).
      destruct (scan_once n s) as [[v r]|e]; simpl in *.
      2: { destruct IHs as [->|[-> Hn]]; [now left | right; split; [reflexivity | lia]]. }
      destruct (skip_ws r) as [|c1 r1] eqn:Ews; simpl; [now left|].
      ws_length r Ews.
      destruct (Ascii.eqb c1 "]"); simpl; [lia|].
      destruct (Ascii.eqb c1 ","); simpl; [|now left].
      specialize (IHa (skip_ws r1)). pose proof (skip_ws_length r1).
      destruct (parse_array n (skip_ws r1)) as [[vs r']|e]; simpl in *; [lia|].
      destruct IHa as [->|[-> Hn]]; [now left | right; split; [reflexivity | lia]].
    + (* parse_object *)
      simpl.
      destruct (scanstring s) as [[cs r]|e] eqn:E; simpl.
      2: { left. eapply scanstring_Err, E. }
      apply scanstring_length in E.
      destruct (skip_ws r) as [|c1 r1] eqn:Ews; simpl; [now left|].
      ws_length r Ews.
      destruct (Ascii.eqb c1 ":"); simpl; [|now left].
      specialize (IHs (skip_ws r1)). pose proof (skip_ws_length r1).
      destruct (scan_once n (skip_ws r1)) as [[v r2]|e]; simpl in *.
      2: { destruct IHs as [->|[-> Hn]]; [now left | right; split; [reflexivity | lia]]. }
      destruct (skip_ws r2) as [|c2 r3] eqn:Ews2; simpl; [now left|].
      ws_length r2 Ews2.
      destruct (Ascii.eqb c2 "}"); simpl; [lia|].
      destruct (Ascii.eqb c2 ","); simpl; [|now left].
      destruct (skip_ws r3) as [|c3 r4] eqn:Ews3; simpl; [now left|].
      ws_length r3 Ews3.
      destruct (Ascii.eqb c3 "034"); simpl; [|now left].
      specialize (IHo r4).
      destruct (parse_object n r4) as [[ps r']|e]; simpl in *; [lia|].
      destruct IHo as [->|[-> Hn]]; [now left | right; split; [reflexivity | lia]].
Qed.

(** [decode] gives a value or a syntax error: the fuel it starts with is
    enough for every text. *)
Lemma decode_total (s : string) :
  (exists v, decode s = Ok v) \/ decode s = Err JSONDecodeError.
Proof.
  unfold decode.
  destruct (decoder_steps (2 * String.length s + 1)) as (Hs & _ & _).
  specialize (Hs (skip_ws s)). pose proof (skip_ws_length s).
  destruct (scan_once (2 * String.length s + 1) (skip_ws s)) as [[v r]|e]; simpl in Hs.
  - destruct (skip_ws r); eauto.
  - destruct Hs as [->|[_ Hn]]; [now right | lia].
Qed.

Lemma json_loads_fuel (x : pyval) : json_loads x <> Err OutOfFuel.
Proof.
  destruct x; simpl; try discriminate.
  destruct (decode_total s) as [[v ->]| ->]; discriminate.
Qed.


(** ** Text that passes the filter decodes to a list headed by an object *)

Lemma scan_once_object_head (n : nat) (r : string) (v : pyval) (r' : string) :
  scan_once n (String "{" r) = Ok (v, r') -> exists d, v = PDict d.
Proof.
  destruct n as [|n]; simpl; [discriminate|].
  destruct (skip_ws r) as [|c1 r1]; [discriminate|].
  destruct (Ascii.eqb c1 "}"); [intros [= <- <-]; eauto|].
  destruct (Ascii.eqb c1 "034"); [|discriminate].
  destruct (parse_object n r1) as [[ps r'']|e]; [|discriminate].
  intros [= <- <-]; eauto.
Qed.

Lemma scan_once_offenders (n : nat) (r : string) (v : pyval) (r' : string) :
  scan_once n (String "[" (String "{" r)) = Ok (v, r') ->
  exists d vs, v = PList (PDict d :: vs).
Proof.
  destruct n as [|n]; simpl; [discriminate|].
  destruct n as [|n]; simpl; [discriminate|].
  destruct (scan_once n (String "{" r)) as [[v0 r0]|e] eqn:E; [|discriminate].
  apply scan_once_object_head in E as [d ->].
  destruct (skip_ws r0) as [|c1 r1]; [discriminate|].
  destruct (Ascii.eqb c1 "]"); [intros [= <- <-]; eauto|].
  destruct (Ascii.eqb c1 ","); [|discriminate].
  destruct (parse_array n (skip_ws r1)) as [[vs r'']|e]; [|discriminate].
  intros [= <- <-]; eauto.
Qed.

Lemma prefix_cons (a b : ascii) (p s : string) :
  String.prefix (String a p) (String b s) = true ->
  a = b /\ String.prefix p s = true.
Proof.
  change (String.prefix (String a p) (String b s))
    with (if ascii_dec a b then String.prefix p s else false).
  destruct (ascii_dec a b); [tauto | discriminate].
Qed.

Lemma sentinel_prefix (s : string) :
  String.prefix sentinel s = true -> exists r, s = String "[" (String "{" r).
Proof.
  unfold sentinel. intros H.
  destruct s as [|a [|b r]]; [discriminate | |].
  - apply prefix_cons in H as [_ H]. discriminate.
  - apply prefix_cons in H as [<- H]. apply prefix_cons in H as [<- _]. eauto.
Qed.

Lemma filtered_decodes (cell v : pyval) :
  filter_conditions cell = true -> json_loads cell = Ok v ->
  exists d vs, v = PList (PDict d :: vs).
Proof.
  destruct cell as [| | | |s| |]; simpl; try discriminate.
  intros Hp. apply sentinel_prefix in Hp as [r ->].
  unfold decode. cbn [skip_ws is_ws].
  destruct (scan_once _ _) as [[v0 r0]|e] eqn:E; [|discriminate].
  apply scan_once_offenders in E.
  destruct (skip_ws r0); [|discriminate].
  intros H; injection H as <-. exact E.
Qed.

(** ** The Record Filter *)

Lemma record_filter_cons (r : gmap string pyval) (df : list (gmap string pyval)) :
  record_filter (r :: df) =
  match r !! "TEST_RESULT_VALUE" with
  | None => Err KeyError
  | Some v =>
      match record_filter df with
      | Ok kept => Ok (if filter_conditions v then r :: kept else kept)
      | Err e => Err e
      end
  end.
Proof.
  unfold record_filter, column, getitem. simpl.
  destruct (r !! "TEST_RESULT_VALUE"); simpl; [|reflexivity].
  destruct (mapM _ df); reflexivity.
Qed.

Lemma record_filter_Ok (df : list (gmap string pyval)) :
  (forall r, In r df -> is_Some (r !! "TEST_RESULT_VALUE")) ->
  record_filter df = Ok (List.filter keeps df).
Proof.
  induction df as [|r df IH]; intros H; [reflexivity|].
  rewrite record_filter_cons, IH by (intros; apply H; now right).
  destruct (H r (or_introl eq_refl)) as [v Hv].
  simpl. unfold keeps. rewrite Hv. reflexivity.
Qed.

Lemma record_filter_inv (df kept : list (gmap string pyval)) :
  record_filter df = Ok kept -> kept = List.filter keeps df.
Proof.
  revert kept. induction df as [|r df IH]; intros kept.
  - now intros [= <-].
  - rewrite record_filter_cons. simpl. unfold keeps.
    destruct (r !! "TEST_RESULT_VALUE"); [|discriminate].
    destruct (record_filter df) as [kept'|]; [|discriminate].
    intros [= <-]. now rewrite (IH kept' eq_refl).
Qed.

Lemma record_filter_Err (df : list (gmap string pyval)) (e : exn) :
  record_filter df = Err e -> e = KeyError.
Proof.
  induction df as [|r df IH]; [discriminate|].
  rewrite record_filter_cons.
  destruct (r !! "TEST_RESULT_VALUE"); [|congruence].
  destruct (record_filter df); [discriminate|].
  intros [= <-]. now apply IH.
Qed.

Lemma filter_sublist {A : Type} (f : A -> bool) (l : list A) :
  sublist (List.filter f l) l.
Proof.
  induction l as [|x l IH]; simpl; [constructor|].
  destruct (f x); now constructor.
Qed.

Lemma keeps_prefix (r : gmap string pyval) :
  keeps r = true <->
  exists s, r !! "TEST_RESULT_VALUE" = Some (PStr s) /\ String.prefix sentinel s = true.
Proof.
  unfold keeps. split.
  - destruct (r !! "TEST_RESULT_VALUE") as [[| | | |s| |]|]; simpl; try discriminate.
    eauto.
  - intros (s & -> & H). exact H.
Qed.

(** C3: the Record Filter returns, without error, the rows whose
    [TEST_RESULT_VALUE] is a text starting with the prefix
    [[{"OCCURRENCES"], in their order; every other row is dropped, and
    every row of the output has the prefix. *)
Theorem record_filter_spec (df : list (gmap string pyval)) :
  (forall r, In r df -> is_Some (r !! "TEST_RESULT_VALUE")) ->
  record_filter df = Ok (List.filter keeps df)
  /\ sublist (List.filter keeps df) df
  /\ (forall r, In r (List.filter keeps df) <->
                In r df /\
                exists s, r !! "TEST_RESULT_VALUE" = Some (PStr s)
                          /\ String.prefix sentinel s = true)
  /\ sentinel = String "[" (String "{" (String "034"
                 (String.append "OCCURRENCES" (String "034" EmptyString)))).
Proof.
  intros H. split; [now apply record_filter_Ok|].
  split; [apply filter_sublist|].
  split; [|reflexivity].
  intros r. rewrite filter_In, keeps_prefix. reflexivity.
Qed.

Lemma record_filter_spec_witness :
  (forall r, In r mixed_frame -> is_Some (r !! "TEST_RESULT_VALUE"))
  /\ record_filter mixed_frame = Ok [not_null_row]
  /\ sublist [not_null_row] mixed_frame.
Proof.
  assert (H : forall r, In r mixed_frame -> is_Some (r !! "TEST_RESULT_VALUE")).
  { intros r [<-|[<-|[<-|[]]]]; vm_compute; eauto. }
  split; [exact H|].
  destruct (record_filter_spec mixed_frame H) as (H1 & H2 & _).
  split; [exact H1 | exact H2].
Defined.

(** ** The Query Descriptor Parser *)

Lemma parse_query_dict (q : pyval) (d : list (string * pyval)) :
  json_loads q = Ok (PDict d) ->
  parse_query q = Ok (table_resolution d,
                      lookup_default "COLUMN_NAME" (PStr EmptyString) d,
                      lookup_default "VALUE" (PStr EmptyString) d).
Proof.
  intros H. unfold parse_query. rewrite H. simpl.
  unfold table_resolution, lookup_default.
  destruct (dict_lookup "TABLE_NAME_MAIN" d) as [m|]; simpl; [|reflexivity].
  destruct (truthy m); reflexivity.
Qed.

Lemma parse_query_Err (q : pyval) (e : exn) :
  parse_query q = Err e ->
  json_loads q = Err e \/ (e = AttributeError /\ exists v, json_loads q = Ok v).
Proof.
  unfold parse_query.
  destruct (json_loads q) as [v|e'] eqn:E; simpl; [|intros [= <-]; now left].
  destruct v; simpl; try (intros [= <-]; right; eauto).
  intros H. exfalso. revert H.
  destruct (dict_lookup "TABLE_NAME_MAIN" d) as [m|]; simpl; [|discriminate].
  destruct (truthy m); discriminate.
Qed.

(** C2: for every TEST_PARAMETERS object the parser resolves TABLE to the
    value of [TABLE_NAME_MAIN] if that key is present and truthy, else to
    the value of [TABLE_NAME], else to the empty string; the four example
    objects give "A", "B", the empty string, and "B" for an empty (falsy)
    [TABLE_NAME_MAIN]. *)
Theorem parse_query_table (s : string) (d : list (string * pyval)) :
  json_loads (PStr s) = Ok (PDict d) ->
  (exists column value,
      parse_query (PStr s) = Ok (table_resolution d, column, value))
  /\ parse_query (PStr (dq "{'TABLE_NAME_MAIN':'A','TABLE_NAME':'B'}"))
     = Ok (PStr "A", PStr EmptyString, PStr EmptyString)
  /\ parse_query (PStr (dq "{'TABLE_NAME':'B'}"))
     = Ok (PStr "B", PStr EmptyString, PStr EmptyString)
  /\ parse_query (PStr "{}")
     = Ok (PStr EmptyString, PStr EmptyString, PStr EmptyString)
  /\ parse_query (PStr (dq "{'TABLE_NAME_MAIN':'','TABLE_NAME':'B'}"))
     = Ok (PStr "B", PStr EmptyString, PStr EmptyString).
Proof.
  intros H. split.
  - rewrite (parse_query_dict _ _ H). eauto.
  - repeat split; vm_compute; reflexivity.
Qed.

Lemma parse_query_table_witness :
  json_loads (PStr (dq "{'TABLE_NAME_MAIN':0,'TABLE_NAME':'B'}"))
  = Ok (PDict [("TABLE_NAME_MAIN", PInt 0); ("TABLE_NAME", PStr "B")])
  /\ exists column value,
       parse_query (PStr (dq "{'TABLE_NAME_MAIN':0,'TABLE_NAME':'B'}"))
       = Ok (PStr "B", column, value).
Proof.
  assert (H : json_loads (PStr (dq "{'TABLE_NAME_MAIN':0,'TABLE_NAME':'B'}"))
              = Ok (PDict [("TABLE_NAME_MAIN", PInt 0); ("TABLE_NAME", PStr "B")]))
    by (vm_compute; reflexivity).
  split; [exact H|].
  exact (proj1 (parse_query_table _ _ H)).
Defined.

(** ** The Offender Expander *)

Lemma expand_offender_dict (row : gmap string pyval)
  (t c n cr q : pyval) (d : list (string * pyval)) :
  row !! "TABLE" = Some t -> row !! "COLUMN" = Some c ->
  row !! "TEST_NAME" = Some n -> row !! "CRITERIA" = Some cr ->
  row !! "TEST_QUERY" = Some q ->
  expand_offender row (PDict d) = Ok (expanded_row t c n cr q d).
Proof.
  intros Ht Hc Hn Hcr Hq. unfold expand_offender, getitem.
  rewrite Ht, Hc, Hn, Hcr, Hq. reflexivity.
Qed.

Lemma expand_data_objects (row : gmap string pyval) (cell : pyval)
  (t c n cr q : pyval) (offs : list (list (string * pyval))) :
  row !! "TABLE" = Some t -> row !! "COLUMN" = Some c ->
  row !! "TEST_NAME" = Some n -> row !! "CRITERIA" = Some cr ->
  row !! "TEST_QUERY" = Some q ->
  row !! "TEST_RESULT_VALUE" = Some cell ->
  json_loads cell = Ok (PList (map PDict offs)) ->
  expand_data row = Ok (map (expanded_row t c n cr q) offs).
Proof.
  intros Ht Hc Hn Hcr Hq Hv Hj. unfold expand_data, getitem.
  rewrite Hv. simpl. rewrite Hj. simpl.
  rewrite <- (map_map PDict (fun o => match o with
                                      | PDict d => expanded_row t c n cr q d
                                      | _ => o
                                      end)).
  apply mapM_Ok_map. intros o Ho. apply in_map_iff in Ho as (d & <- & _).
  now apply expand_offender_dict.
Qed.

(** C1 (as amended): when the [TEST_RESULT_VALUE] of a row decodes to an
    array of objects, the Offender Expander returns one ExpandedRow per
    object, in array order, with OFFENDERS and OCCURRENCES taken from the
    object (empty string and 0 when absent) and TABLE, COLUMN, TEST_NAME,
    CRITERIA, TEST_QUERY copied from the row; the two-element example
    yields two rows, the second with an empty OFFENDERS. *)
Theorem expand_data_spec (row : gmap string pyval) (s : string)
  (t c n cr q : pyval) (offs : list (list (string * pyval))) :
  row !! "TABLE" = Some t -> row !! "COLUMN" = Some c ->
  row !! "TEST_NAME" = Some n -> row !! "CRITERIA" = Some cr ->
  row !! "TEST_QUERY" = Some q ->
  row !! "TEST_RESULT_VALUE" = Some (PStr s) ->
  json_loads (PStr s) = Ok (PList (map PDict offs)) ->
  expand_data row = Ok (map (expanded_row t c n cr q) offs)
  /\ expand_data
       (expander_input t c n cr q
          "[{'OCCURRENCES': 3, 'OFFENDERS': 'x'}, {'OCCURRENCES': 5}]")
     = Ok [ PDict [("TABLE", t); ("COLUMN", c); ("TEST_NAME", n); ("CRITERIA", cr);
                   ("OFFENDERS", PStr "x"); ("OCCURRENCES", PInt 3);
                   ("TEST_QUERY", q)];
            PDict [("TABLE", t); ("COLUMN", c); ("TEST_NAME", n); ("CRITERIA", cr);
                   ("OFFENDERS", PStr EmptyString); ("OCCURRENCES", PInt 5);
                   ("TEST_QUERY", q)] ].
Proof.
  intros Ht Hc Hn Hcr Hq Hv Hj. split.
  - now apply (expand_data_objects row (PStr s)).
  - apply (expand_data_objects _ (PStr (dq
      "[{'OCCURRENCES': 3, 'OFFENDERS': 'x'}, {'OCCURRENCES': 5}]")) t c n cr q
      [[("OCCURRENCES", PInt 3); ("OFFENDERS", PStr "x")]; [("OCCURRENCES", PInt 5)]]);
      reflexivity.
Qed.

Lemma expand_data_spec_witness :
  two_offender_row !! "TABLE" = Some (PStr "orders")
  /\ two_offender_row !! "COLUMN" = Some (PStr "id")
  /\ two_offender_row !! "TEST_NAME" = Some (PStr "not_null")
  /\ two_offender_row !! "CRITERIA" = Some PNone
  /\ two_offender_row !! "TEST_QUERY" = Some (PStr "SELECT id FROM orders")
  /\ two_offender_row !! "TEST_RESULT_VALUE" = Some (PStr (dq "[{'OCCURRENCES': 1}, {}]"))
  /\ json_loads (PStr (dq "[{'OCCURRENCES': 1}, {}]"))
     = Ok (PList (map PDict [[("OCCURRENCES", PInt 1)]; []]))
  /\ expand_data two_offender_row
     = Ok (map (expanded_row (PStr "orders") (PStr "id") (PStr "not_null") PNone
                  (PStr "SELECT id FROM orders"))
             [[("OCCURRENCES", PInt 1)]; []]).
Proof.
  repeat (split; [vm_compute; reflexivity|]).
  apply (expand_data_spec two_offender_row (dq "[{'OCCURRENCES': 1}, {}]")
           (PStr "orders") (PStr "id") (PStr "not_null") PNone
           (PStr "SELECT id FROM orders") [[("OCCURRENCES", PInt 1)]; []]);
    vm_compute; reflexivity.
Defined.

(** C1, as first stated, fails on an array with an element that is not an
    object: the value passes the filter and decodes to an array of two
    elements, and the expander raises instead of emitting two rows. *)
Lemma expand_data_spec_counterexample :
  keeps non_object_row = true
  /\ non_object_row !! "TEST_RESULT_VALUE" = Some (PStr (dq "[{'OCCURRENCES': 3}, 5]"))
  /\ json_loads (PStr (dq "[{'OCCURRENCES': 3}, 5]"))
     = Ok (PList [PDict [("OCCURRENCES", PInt 3)]; PInt 5])
  /\ expand_data non_object_row = Err AttributeError.
Proof. repeat split; vm_compute; reflexivity. Qed.

Lemma expand_offender_inv (row : gmap string pyval) (o r : pyval) :
  expand_offender row o = Ok r ->
  exists t c n cr q d,
    o = PDict d /\ r = expanded_row t c n cr q d
    /\ row !! "TABLE" = Some t /\ row !! "COLUMN" = Some c
    /\ row !! "TEST_NAME" = Some n /\ row !! "CRITERIA" = Some cr
    /\ row !! "TEST_QUERY" = Some q.
Proof.
  unfold expand_offender, getitem.
  destruct (row !! "TABLE") as [t|]; [|discriminate].
  destruct (row !! "COLUMN") as [c|]; [|discriminate].
  destruct (row !! "TEST_NAME") as [n|]; [|discriminate].
  destruct (row !! "CRITERIA") as [cr|]; [|discriminate].
  simpl. destruct o; simpl; try discriminate.
  destruct (row !! "TEST_QUERY") as [q|]; [|discriminate].
  simpl. intros [= <-]. exists t, c, n, cr, q, d. repeat split; reflexivity.
Qed.

Lemma expand_data_inv (row : gmap string pyval) (rows : list pyval) :
  expand_data row = Ok rows ->
  exists cell parsed offs,
    row !! "TEST_RESULT_VALUE" = Some cell /\ json_loads cell = Ok parsed
    /\ py_iter parsed = Ok offs /\ mapM (expand_offender row) offs = Ok rows.
Proof.
  unfold expand_data, getitem.
  destruct (row !! "TEST_RESULT_VALUE") as [cell|]; [|discriminate]. simpl.
  destruct (json_loads cell) as [parsed|] eqn:Ej; [|discriminate]. simpl.
  destruct (py_iter parsed) as [offs|] eqn:Ei; [|discriminate]. simpl.
  intros H. exists cell, parsed, offs. repeat split; assumption.
Qed.

(** ** The sum law *)

Lemma expanded_occurrences (row : gmap string pyval) (offs rows : list pyval) :
  mapM (expand_offender row) offs = Ok rows ->
  exists cells,
    record_column rows "OCCURRENCES" = Ok cells
    /\ mapM (fun o => py_get o "OCCURRENCES" (PInt 0)) offs = Ok cells.
Proof.
  intros H. apply mapM_Ok_Forall2 in H.
  induction H as [|o r offs rows Hor _ (cells & Hc1 & Hc2)].
  - exists []. split; reflexivity.
  - apply expand_offender_inv in Hor as (t & c & n & cr & q & d & -> & -> & _).
    exists (lookup_default "OCCURRENCES" (PInt 0) d :: cells).
    unfold record_column in *. simpl. rewrite Hc1, Hc2. split; reflexivity.
Qed.

(** C6: for a row whose [TEST_RESULT_VALUE] decodes to an array, the
    OCCURRENCES cells of the ExpandedRows made from it are, one for one,
    the OCCURRENCES values of the array's elements (0 where the key is
    absent), so their sums are equal, whatever addition sums them. *)
Theorem occurrences_sum_law (plus : pyval -> pyval -> pyval)
  (row : gmap string pyval) (cell : pyval) (offs rows : list pyval) :
  row !! "TEST_RESULT_VALUE" = Some cell ->
  json_loads cell = Ok (PList offs) ->
  expand_data row = Ok rows ->
  exists out_cells in_cells,
    record_column rows "OCCURRENCES" = Ok out_cells
    /\ mapM (fun o => py_get o "OCCURRENCES" (PInt 0)) offs = Ok in_cells
    /\ out_cells = in_cells
    /\ column_sum plus out_cells = column_sum plus in_cells.
Proof.
  intros Hv Hj He.
  apply expand_data_inv in He as (cell' & parsed & offs' & Hv' & Hj' & Hi & Hm).
  rewrite Hv in Hv'. injection Hv' as <-.
  rewrite Hj in Hj'. injection Hj' as <-.
  simpl in Hi. injection Hi as <-.
  destruct (expanded_occurrences _ _ _ Hm) as (cells & H1 & H2).
  exists cells, cells. repeat split; assumption.
Qed.

Lemma occurrences_sum_law_witness :
  two_offender_row !! "TEST_RESULT_VALUE" = Some (PStr (dq "[{'OCCURRENCES': 1}, {}]"))
  /\ json_loads (PStr (dq "[{'OCCURRENCES': 1}, {}]"))
     = Ok (PList [PDict [("OCCURRENCES", PInt 1)]; PDict []])
  /\ (exists rows, expand_data two_offender_row = Ok rows)
  /\ exists out_cells in_cells,
       record_column
         (map (expanded_row (PStr "orders") (PStr "id") (PStr "not_null") PNone
                 (PStr "SELECT id FROM orders"))
            [[("OCCURRENCES", PInt 1)]; []]) "OCCURRENCES" = Ok out_cells
       /\ mapM (fun o => py_get o "OCCURRENCES" (PInt 0))
            [PDict [("OCCURRENCES", PInt 1)]; PDict []] = Ok in_cells
       /\ out_cells = in_cells
       /\ column_sum int_plus out_cells = column_sum int_plus in_cells.
Proof.
  split; [vm_compute; reflexivity|].
  split; [vm_compute; reflexivity|].
  split; [eexists; vm_compute; reflexivity|].
  apply (occurrences_sum_law int_plus two_offender_row
           (PStr (dq "[{'OCCURRENCES': 1}, {}]"))
           [PDict [("OCCURRENCES", PInt 1)]; PDict []]);
    vm_compute; reflexivity.
Defined.

(** ** The whole pass *)

Lemma load_and_process_data_Ok (table kept : list (gmap string pyval))
  (queries : list pyval) (parsed : list (pyval * pyval * pyval))
  (lists : list (list pyval)) :
  record_filter table = Ok kept ->
  kept <> [] ->
  column kept "TEST_PARAMETERS" = Ok queries ->
  mapM parse_query queries = Ok parsed ->
  mapM expand_data (set_columns kept parsed) = Ok lists ->
  load_and_process_data table = Ok (explode lists).
Proof.
  intros Hf Hne Hq Hp He.
  unfold load_and_process_data, assign_descriptors, expand_frame.
  rewrite Hf. cbn [mbind result_bind]. rewrite Hq. cbn [mbind result_bind].
  rewrite Hp. cbn [mbind result_bind].
  destruct kept; [congruence|]. cbn [mbind result_bind]. rewrite He. reflexivity.
Qed.

(** C7 (as amended): in a table that has a [TEST_QUERY] column, the single
    row of the scenario gives exactly one ExpandedRow, with TABLE "orders",
    COLUMN "id", CRITERIA null (the null VALUE is kept), TEST_NAME
    "not_null", OFFENDERS "row5,row9", OCCURRENCES 2, and the row's
    TEST_QUERY. *)
Theorem end_to_end_not_null (row : gmap string pyval) (q : pyval) :
  row !! "TEST_NAME" = Some (PStr "not_null") ->
  row !! "TEST_PARAMETERS"
  = Some (PStr (dq "{'TABLE_NAME':'orders','COLUMN_NAME':'id','VALUE':null}")) ->
  row !! "TEST_RESULT_VALUE"
  = Some (PStr (dq "[{'OCCURRENCES':2,'OFFENDERS':'row5,row9'}]")) ->
  row !! "TEST_QUERY" = Some q ->
  load_and_process_data [row]
  = Ok [ PDict [("TABLE", PStr "orders"); ("COLUMN", PStr "id");
                ("TEST_NAME", PStr "not_null"); ("CRITERIA", PNone);
                ("OFFENDERS", PStr "row5,row9"); ("OCCURRENCES", PInt 2);
                ("TEST_QUERY", q)] ].
Proof.
  intros Hn Hp Hv Hq.
  apply (load_and_process_data_Ok [row] [row]
           [PStr (dq "{'TABLE_NAME':'orders','COLUMN_NAME':'id','VALUE':null}")]
           [(PStr "orders", PStr "id", PNone)]
           [[expanded_row (PStr "orders") (PStr "id") (PStr "not_null") PNone q
               [("OCCURRENCES", PInt 2); ("OFFENDERS", PStr "row5,row9")]]]).
  - rewrite record_filter_cons, Hv. reflexivity.
  - discriminate.
  - unfold column, getitem. cbn [mapM]. rewrite Hp. reflexivity.
  - vm_compute. reflexivity.
  - cbn [set_columns mapM].
    rewrite (expand_data_objects _
               (PStr (dq "[{'OCCURRENCES':2,'OFFENDERS':'row5,row9'}]"))
               (PStr "orders") (PStr "id") (PStr "not_null") PNone q
               [[("OCCURRENCES", PInt 2); ("OFFENDERS", PStr "row5,row9")]]);
      [reflexivity | | | | | | | vm_compute; reflexivity];
      repeat (rewrite lookup_insert_ne by discriminate);
      first [apply lookup_insert_eq | assumption].
Qed.

Lemma end_to_end_not_null_witness :
  not_null_row_with_query !! "TEST_NAME" = Some (PStr "not_null")
  /\ not_null_row_with_query !! "TEST_PARAMETERS"
     = Some (PStr (dq "{'TABLE_NAME':'orders','COLUMN_NAME':'id','VALUE':null}"))
  /\ not_null_row_with_query !! "TEST_RESULT_VALUE"
     = Some (PStr (dq "[{'OCCURRENCES':2,'OFFENDERS':'row5,row9'}]"))
  /\ not_null_row_with_query !! "TEST_QUERY" = Some (PStr "SELECT id FROM orders")
  /\ load_and_process_data [not_null_row_with_query]
     = Ok [ PDict [("TABLE", PStr "orders"); ("COLUMN", PStr "id");
                   ("TEST_NAME", PStr "not_null"); ("CRITERIA", PNone);
                   ("OFFENDERS", PStr "row5,row9"); ("OCCURRENCES", PInt 2);
                   ("TEST_QUERY", PStr "SELECT id FROM orders")] ].
Proof.
  repeat (split; [vm_compute; reflexivity|]).
  apply (end_to_end_not_null not_null_row_with_query (PStr "SELECT id FROM orders"));
    vm_compute; reflexivity.
Defined.

(** C7, as first stated, fails on the table that has only the three
    columns it names: the expander reads [TEST_QUERY] from the row. *)
Lemma end_to_end_not_null_counterexample :
  dom not_null_row = {[ "TEST_NAME"; "TEST_PARAMETERS"; "TEST_RESULT_VALUE" ]}
  /\ load_and_process_data [not_null_row] = Err KeyError.
Proof.
  split; [|vm_compute; reflexivity].
  unfold not_null_row, source_row. rewrite !dom_insert_L, dom_singleton_L. set_solver.
Qed.

(** *** The stages of the pass *)

Lemma set_columns_with_descriptor (df : list (gmap string pyval))
  (parsed : list (pyval * pyval * pyval)) :
  set_columns df parsed
  = map (fun rp => with_descriptor (fst (fst (snd rp))) (snd (fst (snd rp)))
                     (snd (snd rp)) (fst rp))
      (combine df parsed).
Proof.
  revert parsed. induction df as [|r df IH]; intros [|[[t c] v] parsed];
    simpl; try reflexivity.
  now rewrite IH.
Qed.

Lemma In_set_columns (df : list (gmap string pyval))
  (parsed : list (pyval * pyval * pyval)) (r' : gmap string pyval) :
  In r' (set_columns df parsed) ->
  exists r t c v, In r df /\ r' = with_descriptor t c v r.
Proof.
  rewrite set_columns_with_descriptor. intros H.
  apply in_map_iff in H as ([r [[t c] v]] & <- & Hin).
  apply in_combine_l in Hin. exists r, t, c, v. split; [exact Hin | reflexivity].
Qed.

Lemma set_columns_In (df : list (gmap string pyval))
  (parsed : list (pyval * pyval * pyval)) (r : gmap string pyval) :
  List.length parsed = List.length df -> In r df ->
  exists t c v, In (with_descriptor t c v r) (set_columns df parsed).
Proof.
  revert parsed. induction df as [|r0 df IH]; intros [|[[t c] v] parsed] Hlen Hin;
    simpl in *; try contradiction; try discriminate.
  destruct Hin as [->|Hin].
  - exists t, c, v. now left.
  - destruct (IH parsed) as (t' & c' & v' & H'); [lia | exact Hin |].
    exists t', c', v'. now right.
Qed.

Lemma with_descriptor_lookup (t c v : pyval) (r : gmap string pyval) (label : string) :
  label <> "TABLE" -> label <> "COLUMN" -> label <> "CRITERIA" ->
  with_descriptor t c v r !! label = r !! label.
Proof.
  intros Ht Hc Hv. unfold with_descriptor.
  rewrite !lookup_insert_ne by congruence. reflexivity.
Qed.

Lemma with_descriptor_keeps (t c v : pyval) (r : gmap string pyval) :
  keeps (with_descriptor t c v r) = keeps r.
Proof.
  unfold keeps. rewrite with_descriptor_lookup by discriminate. reflexivity.
Qed.

Lemma column_In (df : list (gmap string pyval)) (label : string) (cells : list pyval) :
  column df label = Ok cells ->
  List.length cells = List.length df
  /\ (forall r, In r df -> exists x, r !! label = Some x /\ In x cells)
  /\ (forall x, In x cells -> exists r, In r df /\ r !! label = Some x).
Proof.
  unfold column. intros H. apply mapM_Ok_Forall2 in H.
  induction H as [|r x df cells Hrx _ (IH1 & IH2 & IH3)].
  - repeat split; simpl; intros; contradiction.
  - unfold getitem in Hrx. destruct (r !! label) as [x'|] eqn:E; [|discriminate].
    injection Hrx as ->. repeat split.
    + simpl. now rewrite IH1.
    + intros r' [<-|Hin].
      * exists x. split; [exact E | now left].
      * destruct (IH2 r' Hin) as (y & Hy & Hyin). exists y. split; [exact Hy | now right].
    + intros y [<-|Hin].
      * exists r. split; [now left | exact E].
      * destruct (IH3 y Hin) as (r' & Hr' & Hy). exists r'. split; [now right | exact Hy].
Qed.

Lemma column_Err (df : list (gmap string pyval)) (label : string) (e : exn) :
  column df label = Err e -> e = KeyError.
Proof.
  unfold column. intros H. apply mapM_Err_In in H as (r & _ & Hr).
  unfold getitem in Hr. destruct (r !! label); congruence.
Qed.

Lemma load_and_process_data_inv (table : list (gmap string pyval)) (out : list pyval) :
  load_and_process_data table = Ok out ->
  exists kept queries parsed lists,
    record_filter table = Ok kept /\ kept <> []
    /\ column kept "TEST_PARAMETERS" = Ok queries
    /\ mapM parse_query queries = Ok parsed
    /\ mapM expand_data (set_columns kept parsed) = Ok lists
    /\ out = explode lists.
Proof.
  unfold load_and_process_data, assign_descriptors, expand_frame.
  destruct (record_filter table) as [kept|] eqn:Ef; [|discriminate].
  cbn [mbind result_bind].
  destruct (column kept "TEST_PARAMETERS") as [queries|] eqn:Eq; [|discriminate].
  cbn [mbind result_bind].
  destruct (mapM parse_query queries) as [parsed|] eqn:Ep; [|discriminate].
  cbn [mbind result_bind].
  destruct kept as [|r kept]; [discriminate|]. cbn [mbind result_bind].
  destruct (mapM expand_data _) as [lists|] eqn:Ee; [|discriminate].
  cbn [mbind result_bind]. intros [= <-].
  exists (r :: kept), queries, parsed, lists. repeat split; try assumption.
  discriminate.
Qed.

Lemma expand_offender_Err (row : gmap string pyval) (o : pyval) (e : exn) :
  expand_offender row o = Err e -> e = KeyError \/ e = AttributeError.
Proof.
  unfold expand_offender, getitem.
  destruct (row !! "TABLE"); [|intros [= <-]; now left].
  destruct (row !! "COLUMN"); [|intros [= <-]; now left].
  destruct (row !! "TEST_NAME"); [|intros [= <-]; now left].
  destruct (row !! "CRITERIA"); [|intros [= <-]; now left].
  simpl. destruct o; simpl; try (intros [= <-]; now right).
  destruct (row !! "TEST_QUERY"); [discriminate | intros [= <-]; now left].
Qed.

Lemma expand_data_JSONDecodeError (row : gmap string pyval) :
  expand_data row = Err JSONDecodeError -> malformed row "TEST_RESULT_VALUE".
Proof.
  unfold expand_data, getitem, malformed.
  destruct (row !! "TEST_RESULT_VALUE") as [cell|]; [|discriminate]. simpl.
  destruct (json_loads cell) as [parsed|e] eqn:Ej; simpl.
  - destruct (py_iter parsed) as [offs|e] eqn:Ei; simpl.
    + intros H. apply mapM_Err_In in H as (o & _ & Ho).
      apply expand_offender_Err in Ho as [|]; discriminate.
    + destruct parsed; simpl in Ei; congruence.
  - intros [= ->]. eauto.
Qed.

Lemma malformed_expand_data (row : gmap string pyval) :
  malformed row "TEST_RESULT_VALUE" -> expand_data row = Err JSONDecodeError.
Proof.
  intros (x & Hx & Hj). unfold expand_data, getitem. rewrite Hx. simpl.
  rewrite Hj. reflexivity.
Qed.

(** A row that passed the filter and was expanded gave at least one
    record, and each of its records has the seven fields. *)
Lemma expand_data_kept (row : gmap string pyval) (rows : list pyval) :
  keeps row = true -> expand_data row = Ok rows ->
  rows <> [] /\ Forall is_expanded_row rows.
Proof.
  intros Hk He.
  apply expand_data_inv in He as (cell & parsed & offs & Hv & Hj & Hi & Hm).
  unfold keeps in Hk. rewrite Hv in Hk.
  destruct (filtered_decodes _ _ Hk Hj) as (d & vs & ->).
  simpl in Hi. injection Hi as <-. split.
  - intros ->. apply mapM_Ok_length in Hm. discriminate.
  - apply mapM_Ok_Forall2 in Hm. clear Hk Hj Hv.
    induction Hm as [|o r offs rows Hor _ IH]; constructor; [|exact IH].
    apply expand_offender_inv in Hor as (t & c & n & cr & q & d' & _ & -> & _).
    eexists. split; reflexivity.
Qed.

Lemma Forall_explode (P : pyval -> Prop) (lists : list (list pyval)) :
  Forall (fun l => l <> [] /\ Forall P l) lists -> Forall P (explode lists).
Proof.
  induction 1 as [|l lists [Hne Hl] _ IH]; [constructor|].
  unfold explode. simpl. apply Forall_app. split; [|exact IH].
  destruct l; [congruence | exact Hl].
Qed.

Lemma kept_lists (table kept : list (gmap string pyval))
  (parsed : list (pyval * pyval * pyval)) (lists : list (list pyval)) :
  record_filter table = Ok kept ->
  mapM expand_data (set_columns kept parsed) = Ok lists ->
  Forall (fun l => l <> [] /\ Forall is_expanded_row l) lists.
Proof.
  intros Hf He. apply record_filter_inv in Hf. apply mapM_Ok_Forall2 in He.
  assert (Hk : Forall (fun r => keeps r = true) (set_columns kept parsed)).
  { apply List.Forall_forall. intros r' Hin.
    apply In_set_columns in Hin as (r & t & c & v & Hin & ->).
    rewrite with_descriptor_keeps. subst kept.
    now apply filter_In in Hin as [_ Hin]. }
  induction He as [|r l rows lists Hrl _ IH]; [constructor|].
  apply List.Forall_cons_iff in Hk as [Hr Hk]. constructor; [|now apply IH].
  now apply (expand_data_kept r).
Qed.

Lemma mapM_ext {A B : Type} (f g : A -> result B) (xs : list A) :
  (forall x, f x = g x) -> mapM f xs = mapM g xs.
Proof.
  intros H. induction xs as [|x xs IH]; simpl; [reflexivity|].
  now rewrite H, IH.
Qed.

Lemma mapM_Forall2 {A B : Type} (f : A -> result B) (xs ys : list A) :
  Forall2 (fun x y => f x = f y) xs ys -> mapM f xs = mapM f ys.
Proof.
  induction 1 as [|x y xs ys Hxy _ IH]; simpl; [reflexivity|].
  now rewrite Hxy, IH.
Qed.

Lemma expand_data_ext (r r' : gmap string pyval) :
  (forall label, In label expander_labels -> r !! label = r' !! label) ->
  expand_data r = expand_data r'.
Proof.
  intros H. unfold expand_data, getitem.
  rewrite (H "TEST_RESULT_VALUE") by (simpl; tauto).
  destruct (r' !! "TEST_RESULT_VALUE"); simpl; [|reflexivity].
  destruct (json_loads _); simpl; [|reflexivity].
  destruct (py_iter _); simpl; [|reflexivity].
  apply mapM_ext. intros o. unfold expand_offender, getitem.
  rewrite (H "TABLE"), (H "COLUMN"), (H "TEST_NAME"), (H "CRITERIA"),
    (H "TEST_QUERY") by (simpl; tauto).
  reflexivity.
Qed.

Lemma record_filter_insert (label : string) (cell : pyval)
  (table : list (gmap string pyval)) :
  label <> "TEST_RESULT_VALUE" ->
  record_filter (map (insert label cell) table)
  = map (insert label cell) <$> record_filter table.
Proof.
  intros Hne. induction table as [|r table IH]; [reflexivity|].
  cbn [map]. rewrite !record_filter_cons, IH, lookup_insert_ne by exact Hne.
  destruct (r !! "TEST_RESULT_VALUE") as [v|]; [|reflexivity].
  destruct (record_filter table); simpl; [|reflexivity].
  destruct (filter_conditions v); reflexivity.
Qed.

Lemma column_insert (label : string) (cell : pyval)
  (df : list (gmap string pyval)) (l : string) :
  label <> l -> column (map (insert label cell) df) l = column df l.
Proof.
  intros Hne. unfold column. induction df as [|r df IH]; [reflexivity|].
  cbn [map mapM]. unfold getitem at 1 3. rewrite lookup_insert_ne by exact Hne.
  now rewrite IH.
Qed.

Lemma with_descriptor_table (t c v : pyval) (r : gmap string pyval) :
  with_descriptor t c v r !! "TABLE" = Some t.
Proof.
  unfold with_descriptor. rewrite !lookup_insert_ne by discriminate.
  apply lookup_insert_eq.
Qed.

Lemma with_descriptor_column (t c v : pyval) (r : gmap string pyval) :
  with_descriptor t c v r !! "COLUMN" = Some c.
Proof.
  unfold with_descriptor. rewrite lookup_insert_ne by discriminate.
  apply lookup_insert_eq.
Qed.

Lemma with_descriptor_criteria (t c v : pyval) (r : gmap string pyval) :
  with_descriptor t c v r !! "CRITERIA" = Some v.
Proof. unfold with_descriptor. apply lookup_insert_eq. Qed.

Lemma with_descriptor_insert (label : string) (cell t c v : pyval)
  (r : gmap string pyval) :
  label <> "TEST_RESULT_VALUE" -> label <> "TEST_NAME" -> label <> "TEST_QUERY" ->
  expand_data (with_descriptor t c v (<[label := cell]> r))
  = expand_data (with_descriptor t c v r).
Proof.
  intros H1 H2 H3. apply expand_data_ext.
  intros l [<-|[<-|[<-|[<-|[<-|[<-|[]]]]]]].
  - rewrite !with_descriptor_lookup by discriminate. now apply lookup_insert_ne.
  - now rewrite !with_descriptor_table.
  - now rewrite !with_descriptor_column.
  - rewrite !with_descriptor_lookup by discriminate. now apply lookup_insert_ne.
  - now rewrite !with_descriptor_criteria.
  - rewrite !with_descriptor_lookup by discriminate. now apply lookup_insert_ne.
Qed.

Lemma set_columns_insert (label : string) (cell : pyval)
  (df : list (gmap string pyval)) (parsed : list (pyval * pyval * pyval)) :
  label <> "TEST_RESULT_VALUE" -> label <> "TEST_NAME" -> label <> "TEST_QUERY" ->
  mapM expand_data (set_columns (map (insert label cell) df) parsed)
  = mapM expand_data (set_columns df parsed).
Proof.
  intros H1 H2 H3. apply mapM_Forall2. revert parsed.
  induction df as [|r df IH]; intros [|[[t c] v] parsed]; simpl; try constructor.
  - now apply (with_descriptor_insert label cell t c v r).
  - apply IH.
Qed.

(** C10: every record the pass returns has exactly the seven fields TABLE,
    COLUMN, TEST_NAME, CRITERIA, OFFENDERS, OCCURRENCES, TEST_QUERY; a
    column of the input table other than the four the pass reads has no
    effect on the output. *)
Theorem expanded_row_fields (table : list (gmap string pyval)) :
  (forall out, load_and_process_data table = Ok out -> Forall is_expanded_row out)
  /\ (forall label cell,
        ~ In label input_labels ->
        load_and_process_data (map (insert label cell) table)
        = load_and_process_data table).
Proof.
  split.
  - intros out H.
    apply load_and_process_data_inv in H
      as (kept & queries & parsed & lists & Hf & _ & _ & _ & He & ->).
    apply Forall_explode. exact (kept_lists _ _ _ _ Hf He).
  - intros label cell Hl.
    assert (label <> "TEST_RESULT_VALUE" /\ label <> "TEST_PARAMETERS"
            /\ label <> "TEST_NAME" /\ label <> "TEST_QUERY") as (H1 & H2 & H3 & H4)
      by (repeat split; intros ->; apply Hl; simpl; tauto).
    unfold load_and_process_data.
    rewrite record_filter_insert by exact H1.
    destruct (record_filter table) as [kept|]; simpl; [|reflexivity].
    unfold assign_descriptors.
    rewrite column_insert by exact H2.
    destruct (column kept "TEST_PARAMETERS") as [queries|]; simpl; [|reflexivity].
    destruct (mapM parse_query queries) as [parsed|]; simpl; [|reflexivity].
    destruct kept as [|r kept]; [reflexivity|]. cbn [map mbind result_bind].
    unfold expand_frame.
    rewrite <- (set_columns_insert label cell (r :: kept) parsed) by assumption.
    reflexivity.
Qed.

Lemma expanded_row_fields_witness :
  load_and_process_data [not_null_row_with_query]
  = Ok [ expanded_row (PStr "orders") (PStr "id") (PStr "not_null") PNone
           (PStr "SELECT id FROM orders")
           [("OCCURRENCES", PInt 2); ("OFFENDERS", PStr "row5,row9")] ]
  /\ Forall is_expanded_row
       [ expanded_row (PStr "orders") (PStr "id") (PStr "not_null") PNone
           (PStr "SELECT id FROM orders")
           [("OCCURRENCES", PInt 2); ("OFFENDERS", PStr "row5,row9")] ]
  /\ load_and_process_data
       (map (insert "LOADED_AT" (PStr "2024-01-01")) [not_null_row_with_query])
     = load_and_process_data [not_null_row_with_query].
Proof.
  assert (H : load_and_process_data [not_null_row_with_query]
              = Ok [ expanded_row (PStr "orders") (PStr "id") (PStr "not_null") PNone
                       (PStr "SELECT id FROM orders")
                       [("OCCURRENCES", PInt 2); ("OFFENDERS", PStr "row5,row9")] ])
    by (vm_compute; reflexivity).
  split; [exact H|]. split.
  - exact (proj1 (expanded_row_fields [not_null_row_with_query]) _ H).
  - apply (proj2 (expanded_row_fields [not_null_row_with_query])).
    intros [|[|[|[|[]]]]]; discriminate.
Defined.

(** ** Rows holding an empty array *)






(** ** Errors *)

Lemma malformed_parse_query (q : pyval) :
  json_loads q = Err JSONDecodeError -> parse_query q = Err JSONDecodeError.
Proof. intros H. unfold parse_query. rewrite H. reflexivity. Qed.

Lemma load_and_process_data_JSONDecodeError (table : list (gmap string pyval)) :
  load_and_process_data table = Err JSONDecodeError ->
  exists r, In r table /\ keeps r = true
            /\ (malformed r "TEST_PARAMETERS" \/ malformed r "TEST_RESULT_VALUE").
Proof.
  unfold load_and_process_data, assign_descriptors, expand_frame.
  destruct (record_filter table) as [kept|e] eqn:Ef; cbn [mbind result_bind].
  2: { intros [= ->]. apply record_filter_Err in Ef. discriminate. }
  apply record_filter_inv in Ef.
  assert (Hkept : forall r, In r kept -> In r table /\ keeps r = true)
    by (intros r Hr; subst kept; now apply filter_In in Hr).
  destruct (column kept "TEST_PARAMETERS") as [queries|e] eqn:Eq;
    cbn [mbind result_bind].
  2: { intros [= ->]. apply column_Err in Eq. discriminate. }
  destruct (mapM parse_query queries) as [parsed|e] eqn:Ep; cbn [mbind result_bind].
  2: { intros [= ->]. apply mapM_Err_In in Ep as (q & Hq & Hpq).
       apply column_In in Eq as (_ & _ & Hc).
       destruct (Hc q Hq) as (r & Hr & Hrq).
       destruct (Hkept r Hr) as [Hin Hk].
       exists r. repeat split; try assumption. left. exists q. split; [exact Hrq|].
       apply parse_query_Err in Hpq as [Hj|[Hj _]]; [exact Hj | discriminate]. }
  destruct kept as [|r0 kept]; [discriminate|]. cbn [mbind result_bind].
  destruct (mapM expand_data _) as [lists|e] eqn:Ee; cbn [mbind result_bind];
    [discriminate|].
  intros [= ->]. apply mapM_Err_In in Ee as (r' & Hr' & He).
  apply In_set_columns in Hr' as (r & t & c & v & Hr & ->).
  apply expand_data_JSONDecodeError in He as (x & Hx & Hj).
  rewrite with_descriptor_lookup in Hx by discriminate.
  destruct (Hkept r Hr) as [Hin Hk].
  exists r. repeat split; try assumption. right. exists x. split; assumption.
Qed.

Lemma malformed_row_fatal (table : list (gmap string pyval)) (r : gmap string pyval) :
  In r table -> keeps r = true ->
  malformed r "TEST_PARAMETERS" \/ malformed r "TEST_RESULT_VALUE" ->
  exists e, load_and_process_data table = Err e.
Proof.
  intros Hin Hk Hm.
  unfold load_and_process_data, assign_descriptors, expand_frame.
  destruct (record_filter table) as [kept|e] eqn:Ef; cbn [mbind result_bind]; [|eauto].
  apply record_filter_inv in Ef.
  assert (Hr : In r kept) by (subst kept; apply filter_In; now split).
  destruct (column kept "TEST_PARAMETERS") as [queries|e] eqn:Eq;
    cbn [mbind result_bind]; [|eauto].
  apply column_In in Eq as (Hlen & Hc & _).
  destruct (mapM parse_query queries) as [parsed|e] eqn:Ep;
    cbn [mbind result_bind]; [|eauto].
  destruct Hm as [(q & Hq & Hj)|Hm].
  - destruct (Hc r Hr) as (q' & Hq' & Hqin).
    rewrite Hq in Hq'. injection Hq' as <-.
    destruct (mapM_In_Err parse_query queries q JSONDecodeError Hqin
                (malformed_parse_query q Hj)) as [e He].
    congruence.
  - destruct kept as [|r0 kept]; [contradiction|]. cbn [mbind result_bind].
    apply mapM_Ok_length in Ep.
    destruct (set_columns_In (r0 :: kept) parsed r) as (t & c & v & Hr');
      [congruence | exact Hr |].
    assert (He : expand_data (with_descriptor t c v r) = Err JSONDecodeError).
    { apply malformed_expand_data. destruct Hm as (x & Hx & Hj).
      exists x. rewrite with_descriptor_lookup by discriminate. now split. }
    destruct (mapM_In_Err expand_data _ _ _ Hr' He) as [e ->]. eauto.
Qed.

(** C5 (as amended): the pass raises a ParseError only if a row that
    passes the prefix filter has a [TEST_PARAMETERS] or a
    [TEST_RESULT_VALUE] that is not valid JSON (rows the filter drops are
    never parsed); whenever a row that passes the filter has one, the whole
    pass ends in an error and returns nothing; keys missing from a
    descriptor or an offender object are never an error and give the
    empty string, or 0 for OCCURRENCES. *)
Theorem parse_errors (table : list (gmap string pyval)) :
  (load_and_process_data table = Err JSONDecodeError ->
   exists r, In r table /\ keeps r = true
             /\ (malformed r "TEST_PARAMETERS" \/ malformed r "TEST_RESULT_VALUE"))
  /\ (forall r, In r table -> keeps r = true ->
                malformed r "TEST_PARAMETERS" \/ malformed r "TEST_RESULT_VALUE" ->
                exists e, load_and_process_data table = Err e)
  /\ (forall q d, json_loads q = Ok (PDict d) ->
                  parse_query q
                  = Ok (table_resolution d,
                        lookup_default "COLUMN_NAME" (PStr EmptyString) d,
                        lookup_default "VALUE" (PStr EmptyString) d))
  /\ (forall row t c n cr q d,
        row !! "TABLE" = Some t -> row !! "COLUMN" = Some c ->
        row !! "TEST_NAME" = Some n -> row !! "CRITERIA" = Some cr ->
        row !! "TEST_QUERY" = Some q ->
        expand_offender row (PDict d) = Ok (expanded_row t c n cr q d))
  /\ (table_resolution [] = PStr EmptyString
      /\ lookup_default "COLUMN_NAME" (PStr EmptyString) [] = PStr EmptyString
      /\ lookup_default "VALUE" (PStr EmptyString) [] = PStr EmptyString
      /\ lookup_default "OFFENDERS" (PStr EmptyString) [] = PStr EmptyString
      /\ lookup_default "OCCURRENCES" (PInt 0) [] = PInt 0).
Proof.
  split; [exact (load_and_process_data_JSONDecodeError table)|].
  split; [exact (malformed_row_fatal table)|].
  split; [exact parse_query_dict|].
  split; [exact expand_offender_dict|].
  repeat split; reflexivity.
Qed.

Lemma parse_errors_witness :
  load_and_process_data table_with_bad_parameters = Err JSONDecodeError
  /\ (exists r, In r table_with_bad_parameters /\ keeps r = true
                /\ (malformed r "TEST_PARAMETERS" \/ malformed r "TEST_RESULT_VALUE")).
Proof.
  assert (H : load_and_process_data table_with_bad_parameters = Err JSONDecodeError)
    by (vm_compute; reflexivity).
  split; [exact H|].
  exact (proj1 (parse_errors table_with_bad_parameters) H).
Defined.

(** C5, as first stated, fails on a table with a row that the filter drops
    and whose [TEST_PARAMETERS] is not JSON: the pass raises nothing. *)
Lemma parse_errors_counterexample :
  (exists r, In r table_with_unparsed_row /\ malformed r "TEST_PARAMETERS")
  /\ load_and_process_data table_with_unparsed_row
     = Ok [ PDict [("TABLE", PStr "orders"); ("COLUMN", PStr "id");
                   ("TEST_NAME", PStr "not_null"); ("CRITERIA", PNone);
                   ("OFFENDERS", PStr "row5,row9"); ("OCCURRENCES", PInt 2);
                   ("TEST_QUERY", PStr "SELECT id FROM orders")] ].
Proof.
  split; [|vm_compute; reflexivity].
  exists (<["TEST_QUERY" := PStr "SELECT 1"]> (source_row "row_count" "not json" "passed")).
  split; [right; now left|].
  exists (PStr "not json"). split; vm_compute; reflexivity.
Qed.

(** ** The sidebar filters *)

Lemma boolean_index_map {A : Type} (f : A -> bool) (g : A -> result pyval)
  (h : pyval -> bool) (df : list A) (cells : list pyval) :
  mapM g df = Ok cells ->
  (forall r c, In r df -> g r = Ok c -> h c = f r) ->
  boolean_index df (map h cells) = List.filter f df.
Proof.
  intros H. apply mapM_Ok_Forall2 in H.
  induction H as [|r c df cells Hrc _ IH]; intros Hf; [reflexivity|].
  simpl. rewrite (Hf r c (or_introl eq_refl) Hrc), IH; [reflexivity|].
  intros r' c' Hin. apply Hf. now right.
Qed.

Lemma expanded_row_item (r : pyval) (label : string) :
  is_expanded_row r -> In label expanded_fields ->
  exists cell, record_item r label = Ok cell.
Proof.
  intros (d & -> & Hd) Hl. unfold expanded_fields in *.
  destruct d as [|[k1 v1] [|[k2 v2] [|[k3 v3] [|[k4 v4] [|[k5 v5]
    [|[k6 v6] [|[k7 v7] [|]]]]]]]]; try discriminate.
  simpl in Hd. injection Hd as -> -> -> -> -> -> ->.
  simpl in Hl.
  destruct Hl as [<-|[<-|[<-|[<-|[<-|[<-|[<-|[]]]]]]]]; eexists; reflexivity.
Qed.

Lemma select_dimension_filter (py_eq : pyval -> pyval -> bool) (label : string)
  (sel : list pyval) (df : list pyval) :
  In label expanded_fields -> Forall is_expanded_row df ->
  select_dimension py_eq label sel df
  = Ok (List.filter (dimension_ok py_eq label sel) df).
Proof.
  intros Hl Hdf. unfold select_dimension.
  destruct sel as [|v sel].
  - f_equal. symmetry. apply forallb_filter_id. apply forallb_forall. reflexivity.
  - unfold record_column.
    destruct (mapM (fun r => record_item r label) df) as [cells|e] eqn:E.
    + cbn [mbind result_bind]. f_equal.
      apply (boolean_index_map _ (fun r => record_item r label)); [exact E|].
      intros r c _ Hrc. unfold dimension_ok. now rewrite Hrc.
    + apply mapM_Err_In in E as (r & Hr & He).
      rewrite List.Forall_forall in Hdf.
      destruct (expanded_row_item r label (Hdf r Hr) Hl) as [cell Hc]. congruence.
Qed.

Lemma filter_filter {A : Type} (f g : A -> bool) (l : list A) :
  List.filter g (List.filter f l) = List.filter (fun x => f x && g x) l.
Proof.
  induction l as [|x l IH]; simpl; [reflexivity|].
  destruct (f x); simpl; [|exact IH].
  destruct (g x); now rewrite IH.
Qed.

Lemma Forall_filter {A : Type} (P : A -> Prop) (f : A -> bool) (l : list A) :
  Forall P l -> Forall P (List.filter f l).
Proof.
  intros H. apply List.Forall_forall. intros x Hx.
  apply filter_In in Hx as [Hx _]. rewrite List.Forall_forall in H. now apply H.
Qed.

Lemma dimension_ok_spec (py_eq : pyval -> pyval -> bool) (label : string)
  (sel : list pyval) (r : pyval) :
  dimension_ok py_eq label sel r = true <->
  sel = [] \/ exists cell v, record_item r label = Ok cell /\ In v sel
                             /\ py_eq cell v = true.
Proof.
  unfold dimension_ok, isin. destruct sel as [|v0 sel].
  - split; [now left | reflexivity].
  - destruct (record_item r label) as [cell|e]; split.
    + intros H. right. apply existsb_exists in H as (v & Hv & Hc). eauto.
    + intros [|(cell' & v & [= <-] & Hv & Hc)]; [discriminate|].
      apply existsb_exists. eauto.
    + discriminate.
    + intros [|(cell' & v & [=] & _)]; discriminate.
Qed.

(** C8: on a set of ExpandedRows the sidebar filters keep exactly the rows
    that pass every dimension with a selection (a row passes a dimension
    when its cell is one of the selected values) and keep every row when
    nothing is selected; selecting the table "orders" on rows for "orders"
    and "customers" keeps the "orders" row. *)
Theorem apply_filters_spec (py_eq : pyval -> pyval -> bool)
  (selected_table selected_column selected_test selected_criteria : list pyval)
  (df : list pyval) :
  Forall is_expanded_row df ->
  apply_filters py_eq selected_table selected_column selected_test selected_criteria df
  = Ok (List.filter
          (selected py_eq selected_table selected_column selected_test
             selected_criteria) df)
  /\ (forall r,
        selected py_eq selected_table selected_column selected_test
          selected_criteria r = true <->
        Forall (fun d : string * list pyval =>
                  snd d = [] \/
                  exists cell v, record_item r (fst d) = Ok cell /\ In v (snd d)
                                 /\ py_eq cell v = true)
          [("TABLE", selected_table); ("COLUMN", selected_column);
           ("TEST_NAME", selected_test); ("CRITERIA", selected_criteria)])
  /\ apply_filters py_eq [] [] [] [] df = Ok df
  /\ apply_filters text_eq [PStr "orders"] [] [] [] [orders_record; customers_record]
     = Ok [orders_record].
Proof.
  intros Hdf.
  assert (Hall : forall s1 s2 s3 s4,
             apply_filters py_eq s1 s2 s3 s4 df
             = Ok (List.filter (selected py_eq s1 s2 s3 s4) df)).
  { intros s1 s2 s3 s4. unfold apply_filters.
    rewrite select_dimension_filter by (simpl; tauto || exact Hdf).
    cbn [mbind result_bind].
    rewrite select_dimension_filter
      by (simpl; tauto || (repeat apply Forall_filter; exact Hdf)).
    cbn [mbind result_bind].
    rewrite select_dimension_filter
      by (simpl; tauto || (repeat apply Forall_filter; exact Hdf)).
    cbn [mbind result_bind].
    rewrite select_dimension_filter
      by (simpl; tauto || (repeat apply Forall_filter; exact Hdf)).
    rewrite !filter_filter. f_equal. apply filter_ext. intros x.
    unfold selected. now rewrite !andb_assoc. }
  split; [apply Hall|]. split; [|split].
  - intros r. unfold selected. rewrite !andb_true_iff, !dimension_ok_spec.
    rewrite !List.Forall_cons_iff. simpl. split.
    + intros (((H1 & H2) & H3) & H4). repeat split; try assumption. constructor.
    + intros (H1 & H2 & H3 & H4 & _). repeat split; assumption.
  - rewrite Hall. f_equal. apply forallb_filter_id. apply forallb_forall. reflexivity.
  - vm_compute. reflexivity.
Qed.

Lemma apply_filters_spec_witness :
  Forall is_expanded_row [orders_record; customers_record]
  /\ apply_filters text_eq [PStr "customers"; PStr "invoices"] [PStr "email"] [] []
       [orders_record; customers_record]
     = Ok [customers_record].
Proof.
  assert (H : Forall is_expanded_row [orders_record; customers_record])
    by (repeat constructor; eexists; split; reflexivity).
  split; [exact H|].
  exact (proj1 (apply_filters_spec text_eq [PStr "customers"; PStr "invoices"]
                  [PStr "email"] [] [] [orders_record; customers_record] H)).
Defined.

(** ** Determinism *)



(** * Further properties of the script *)

Local Open Scope list_scope.

(** ** Outcomes of [parse_query] *)


(** ** Objects with a repeated key *)

Lemma dict_lookup_set (k k' : string) (v : pyval) (d : list (string * pyval)) :
  dict_lookup k (dict_set k' v d)
  = if String.eqb k k' then Some v else dict_lookup k d.
Proof.
  induction d as [|[k0 v0] d IH]; simpl.
  - reflexivity.
  - destruct (String.eqb k' k0) eqn:E0; simpl.
    + apply String.eqb_eq in E0 as <-. now destruct (String.eqb k k').
    + rewrite IH. destruct (String.eqb k k') eqn:E1; [|reflexivity].
      apply String.eqb_eq in E1 as ->. now rewrite E0.
Qed.

Lemma dict_lookup_app (k : string) (d1 d2 : list (string * pyval)) :
  dict_lookup k (d1 ++ d2)
  = match dict_lookup k d1 with
    | Some v => Some v
    | None => dict_lookup k d2
    end.
Proof.
  induction d1 as [|[k0 v0] d1 IH]; simpl; [reflexivity|].
  now destruct (String.eqb k k0).
Qed.

Lemma dict_lookup_fold (k : string) (pairs d : list (string * pyval)) :
  dict_lookup k (fold_left (fun d kv => dict_set (fst kv) (snd kv) d) pairs d)
  = match last_binding k pairs with
    | Some v => Some v
    | None => dict_lookup k d
    end.
Proof.
  unfold last_binding. revert d.
  induction pairs as [|[k0 v0] pairs IH]; intros d; simpl; [reflexivity|].
  rewrite IH, dict_lookup_app, dict_lookup_set. simpl.
  destruct (dict_lookup k (rev pairs)); [reflexivity|].
  now destruct (String.eqb k k0).
Qed.

Lemma dict_set_keys (k : string) (v : pyval) (d : list (string * pyval)) :
  List.NoDup (map fst d) ->
  List.NoDup (map fst (dict_set k v d))
  /\ (forall k', In k' (map fst (dict_set k v d)) -> k' = k \/ In k' (map fst d)).
Proof.
  induction d as [|[k0 v0] d IH]; simpl; intros Hd.
  - split; [constructor; [simpl; tauto | constructor] | simpl; intuition].
  - apply List.NoDup_cons_iff in Hd as [Hk0 Hd]. destruct (IH Hd) as [IH1 IH2].
    destruct (String.eqb k k0) eqn:E; simpl.
    + apply String.eqb_eq in E as ->. split; [now constructor | tauto].
    + split.
      * constructor; [|exact IH1]. intros Hin.
        destruct (IH2 _ Hin) as [->|]; [|contradiction].
        now rewrite String.eqb_refl in E.
      * intros k' [<-|Hin]; [tauto|]. destruct (IH2 _ Hin); tauto.
Qed.

Lemma dict_of_pairs_NoDup (pairs : list (string * pyval)) :
  List.NoDup (map fst (dict_of_pairs pairs)).
Proof.
  unfold dict_of_pairs.
  assert (H : forall d, List.NoDup (map fst d) ->
                List.NoDup (map fst (fold_left (fun d kv => dict_set (fst kv) (snd kv) d)
                                  pairs d))).
  { induction pairs as [|[k v] pairs IH]; intros d Hd; simpl; [exact Hd|].
    apply IH. now apply dict_set_keys. }
  apply H. constructor.
Qed.

(** X2: the dict built from the pairs of a decoded object has every key
    once, and holds under each key the value of the key's last occurrence
    in the text. *)
Theorem dict_of_pairs_last (key : string) (pairs : list (string * pyval)) :
  dict_lookup key (dict_of_pairs pairs) = last_binding key pairs
  /\ List.NoDup (map fst (dict_of_pairs pairs)).
Proof.
  split; [|apply dict_of_pairs_NoDup].
  unfold dict_of_pairs. rewrite dict_lookup_fold. simpl.
  now destruct (last_binding key pairs).
Qed.

(** ** Errors of [expand_data] on a row that passed the filter *)


Lemma expand_offender_missing (row : gmap string pyval) (d : list (string * pyval))
  (label : string) :
  In label copied_labels -> row !! label = None ->
  expand_offender row (PDict d) = Err KeyError.
Proof.
  unfold expand_offender, getitem, copied_labels. simpl.
  intros [<-|[<-|[<-|[<-|[<-|[]]]]]] H; rewrite ?H;
    repeat (match goal with
            | |- context [match ?r !! ?l with _ => _ end] =>
                lazymatch l with
                | _ => destruct (r !! l) eqn:?; simpl; try congruence
                end
            end);
    try reflexivity; congruence.
Qed.




(** X4: when a row that passed the filter has a value that decodes and
    lacks one of TABLE, COLUMN, TEST_NAME, CRITERIA, TEST_QUERY,
    [expand_data] raises [KeyError], whatever the array holds after its
    first element. *)
Theorem expand_data_missing_label (row : gmap string pyval) (cell v : pyval)
  (label : string) :
  keeps row = true ->
  row !! "TEST_RESULT_VALUE" = Some cell ->
  json_loads cell = Ok v ->
  In label copied_labels ->
  row !! label = None ->
  expand_data row = Err KeyError.
Proof.
  intros Hk Hc Hj Hl Hn. unfold keeps in Hk. rewrite Hc in Hk.
  destruct (filtered_decodes cell v Hk Hj) as (d & vs & ->).
  unfold expand_data, getitem. rewrite Hc. simpl. rewrite Hj. simpl.
  now rewrite (expand_offender_missing row d label Hl Hn).
Qed.

Lemma expand_data_missing_label_witness :
  keeps (delete "TEST_QUERY" non_object_row) = true
  /\ delete "TEST_QUERY" non_object_row !! "TEST_RESULT_VALUE"
     = Some (PStr (dq "[{'OCCURRENCES': 3}, 5]"))
  /\ json_loads (PStr (dq "[{'OCCURRENCES': 3}, 5]"))
     = Ok (PList [PDict [("OCCURRENCES", PInt 3)]; PInt 5])
  /\ In "TEST_QUERY" copied_labels
  /\ delete "TEST_QUERY" non_object_row !! "TEST_QUERY" = None
  /\ expand_data (delete "TEST_QUERY" non_object_row) = Err KeyError.
Proof.
  repeat (split; [first [vm_compute; reflexivity | simpl; tauto]|]).
  apply (expand_data_missing_label (delete "TEST_QUERY" non_object_row)
           (PStr (dq "[{'OCCURRENCES': 3}, 5]"))
           (PList [PDict [("OCCURRENCES", PInt 3)]; PInt 5]) "TEST_QUERY");
    first [vm_compute; reflexivity | simpl; tauto].
Defined.

(** ** The pass in closed form *)





Lemma stages_rows (df : list (gmap string pyval)) (queries : list pyval)
  (parsed : list (pyval * pyval * pyval)) (lists : list (list pyval)) :
  column df "TEST_PARAMETERS" = Ok queries ->
  mapM parse_query queries = Ok parsed ->
  mapM expand_data (set_columns df parsed) = Ok lists ->
  mapM process_row df = Ok lists.
Proof.
  unfold column. revert queries parsed lists.
  induction df as [|r df IH]; intros queries parsed lists Hq Hp He.
  - injection Hq as <-. injection Hp as <-. exact He.
  - cbn [mapM] in Hq.
    destruct (getitem r "TEST_PARAMETERS") as [q|] eqn:Eq; [|discriminate].
    destruct (mapM _ df) as [qs|] eqn:Eqs; [|discriminate].
    injection Hq as <-. cbn [mapM] in Hp.
    destruct (parse_query q) as [[[t c] v]|] eqn:Ep; [|discriminate].
    destruct (mapM parse_query qs) as [ps|] eqn:Eps; [|discriminate].
    injection Hp as <-. cbn [set_columns mapM] in He.
    fold (with_descriptor t c v r) in He.
    destruct (expand_data (with_descriptor t c v r)) as [l|] eqn:El; [|discriminate].
    destruct (mapM expand_data (set_columns df ps)) as [ls|] eqn:Els; [|discriminate].
    injection He as <-.
    cbn [mapM]. unfold process_row at 1. rewrite Eq. cbn [mbind result_bind].
    rewrite Ep. cbn [mbind result_bind fst snd]. rewrite El.
    now rewrite (IH qs ps ls).
Qed.

Lemma rows_stages (df : list (gmap string pyval)) (lists : list (list pyval)) :
  mapM process_row df = Ok lists ->
  exists queries parsed,
    column df "TEST_PARAMETERS" = Ok queries
    /\ mapM parse_query queries = Ok parsed
    /\ mapM expand_data (set_columns df parsed) = Ok lists.
Proof.
  unfold column. revert lists.
  induction df as [|r df IH]; intros lists H.
  - injection H as <-. exists [], []. repeat split; reflexivity.
  - cbn [mapM] in H.
    destruct (process_row r) as [l|] eqn:El; [|discriminate].
    destruct (mapM process_row df) as [ls|] eqn:Els; [|discriminate].
    injection H as <-.
    destruct (IH ls eq_refl) as (qs & ps & Hq & Hp & He).
    unfold process_row in El.
    destruct (getitem r "TEST_PARAMETERS") as [q|] eqn:Eq; [|discriminate].
    cbn [mbind result_bind] in El.
    destruct (parse_query q) as [[[t c] v]|] eqn:Ep; [|discriminate].
    cbn [mbind result_bind fst snd] in El.
    exists (q :: qs), ((t, c, v) :: ps). cbn [mapM set_columns].
    fold (with_descriptor t c v r).
    rewrite Eq, Hq, Ep, Hp, El, He. repeat split; reflexivity.
Qed.

Lemma record_filter_columns (table kept : list (gmap string pyval)) :
  record_filter table = Ok kept ->
  forall r, In r table -> is_Some (r !! "TEST_RESULT_VALUE").
Proof.
  revert kept. induction table as [|r0 table IH]; intros kept H r Hr;
    [contradiction|].
  rewrite record_filter_cons in H.
  destruct (r0 !! "TEST_RESULT_VALUE") as [v|] eqn:E; [|discriminate].
  destruct (record_filter table) as [kept'|]; [|discriminate].
  destruct Hr as [<-|Hr]; [rewrite E; eauto | now apply (IH kept')].
Qed.

Lemma explode_concat (lists : list (list pyval)) :
  Forall (fun l => l <> []) lists -> explode lists = concat lists.
Proof.
  unfold explode. induction 1 as [|l lists Hl _ IH]; simpl; [reflexivity|].
  rewrite IH. now destruct l.
Qed.

Lemma kept_lists_nonempty (table kept : list (gmap string pyval))
  (parsed : list (pyval * pyval * pyval)) (lists : list (list pyval)) :
  record_filter table = Ok kept ->
  mapM expand_data (set_columns kept parsed) = Ok lists ->
  Forall (fun l => l <> []) lists.
Proof.
  intros Hf He. eapply List.Forall_impl; [|exact (kept_lists _ _ _ _ Hf He)].
  intros l [Hl _]. exact Hl.
Qed.

(** The pass succeeds with the per-row results of the kept rows, joined
    in table order. *)
Lemma load_rows (table : list (gmap string pyval)) (out : list pyval) :
  load_and_process_data table = Ok out ->
  (forall r, In r table -> is_Some (r !! "TEST_RESULT_VALUE"))
  /\ List.filter keeps table <> []
  /\ exists lists,
       mapM process_row (List.filter keeps table) = Ok lists
       /\ Forall (fun l => l <> []) lists
       /\ out = concat lists.
Proof.
  intros H. apply load_and_process_data_inv in H
    as (kept & queries & parsed & lists & Hf & Hne & Hq & Hp & He & ->).
  split; [exact (record_filter_columns _ _ Hf)|].
  pose proof (kept_lists_nonempty _ _ _ _ Hf He) as Hl.
  apply record_filter_inv in Hf as ->.
  split; [exact Hne|]. exists lists. split; [|split].
  - exact (stages_rows _ _ _ _ Hq Hp He).
  - exact Hl.
  - now apply explode_concat.
Qed.

Lemma rows_load (table : list (gmap string pyval)) (lists : list (list pyval)) :
  (forall r, In r table -> is_Some (r !! "TEST_RESULT_VALUE")) ->
  List.filter keeps table <> [] ->
  mapM process_row (List.filter keeps table) = Ok lists ->
  load_and_process_data table = Ok (concat lists).
Proof.
  intros Hc Hne Hm.
  destruct (rows_stages _ _ Hm) as (queries & parsed & Hq & Hp & He).
  pose proof (record_filter_Ok table Hc) as Hf.
  rewrite <- (explode_concat lists (kept_lists_nonempty _ _ _ _ Hf He)).
  exact (load_and_process_data_Ok _ _ _ _ _ Hf Hne Hq Hp He).
Qed.







(** ** Tables joined and reordered *)


Lemma mapM_Permutation {A B : Type} (f : A -> result B) (xs xs' : list A) :
  Permutation xs xs' ->
  forall ys, mapM f xs = Ok ys ->
  exists ys', mapM f xs' = Ok ys' /\ Permutation ys ys'.
Proof.
  induction 1 as [|x xs xs' _ IH|x y xs|xs1 xs2 xs3 _ IH1 _ IH2]; intros ys H.
  - exists ys. split; [exact H | apply Permutation_refl].
  - simpl in *. destruct (f x) as [z|]; [|discriminate].
    destruct (mapM f xs) as [zs|]; [|discriminate]. injection H as <-.
    destruct (IH zs eq_refl) as (zs' & -> & Hp).
    exists (z :: zs'). split; [reflexivity | now constructor].
  - simpl in *. destruct (f y) as [b|]; [|discriminate].
    destruct (f x) as [a|]; [|discriminate].
    destruct (mapM f xs) as [zs|]; [|discriminate]. injection H as <-.
    exists (a :: b :: zs). split; [reflexivity | apply perm_swap].
  - destruct (IH1 ys H) as (ys2 & H2 & Hp2).
    destruct (IH2 ys2 H2) as (ys3 & H3 & Hp3).
    exists ys3. split; [exact H3 | now apply Permutation_trans with ys2].
Qed.

Lemma filter_Permutation {A : Type} (f : A -> bool) (l l' : list A) :
  Permutation l l' -> Permutation (List.filter f l) (List.filter f l').
Proof.
  induction 1 as [|x l l' _ IH|x y l|l1 l2 l3 _ IH1 _ IH2]; simpl.
  - constructor.
  - destruct (f x); [now constructor | exact IH].
  - destruct (f x), (f y); try apply Permutation_refl. apply perm_swap.
  - now apply Permutation_trans with (List.filter f l2).
Qed.

Lemma concat_Permutation {A : Type} (l l' : list (list A)) :
  Permutation l l' -> Permutation (concat l) (concat l').
Proof.
  induction 1 as [|x l l' _ IH|x y l|l1 l2 l3 _ IH1 _ IH2]; simpl.
  - constructor.
  - now apply Permutation_app_head.
  - rewrite !List.app_assoc. apply Permutation_app_tail, Permutation_app_comm.
  - now apply Permutation_trans with (concat l2).
Qed.



(** X7: reordering the rows of the table keeps the pass successful and
    only reorders its output. *)
Theorem load_and_process_data_Permutation (t t' : list (gmap string pyval))
  (out : list pyval) :
  Permutation t t' ->
  load_and_process_data t = Ok out ->
  exists out', load_and_process_data t' = Ok out' /\ Permutation out out'.
Proof.
  intros Hp H.
  apply load_rows in H as (Hc & Hne & lists & Hm & _ & ->).
  pose proof (filter_Permutation keeps t t' Hp) as Hk.
  destruct (mapM_Permutation process_row _ _ Hk lists Hm) as (lists' & Hm' & Hl).
  exists (concat lists'). split; [|now apply concat_Permutation].
  apply rows_load; [| |exact Hm'].
  - intros r Hr. apply Hc. now apply (Permutation_in r (Permutation_sym Hp)).
  - intros H. rewrite H in Hk. apply Permutation_sym, Permutation_nil in Hk.
    contradiction.
Qed.

Lemma load_and_process_data_Permutation_witness :
  Permutation table_with_unparsed_row (rev table_with_unparsed_row)
  /\ load_and_process_data table_with_unparsed_row = Ok (records_of not_null_facts)
  /\ exists out', load_and_process_data (rev table_with_unparsed_row) = Ok out'
                  /\ Permutation (records_of not_null_facts) out'.
Proof.
  assert (Hp : Permutation table_with_unparsed_row (rev table_with_unparsed_row))
    by apply Permutation_rev.
  assert (H : load_and_process_data table_with_unparsed_row
              = Ok (records_of not_null_facts)) by (vm_compute; reflexivity).
  split; [exact Hp|]. split; [exact H|].
  exact (load_and_process_data_Permutation _ _ _ Hp H).
Defined.

Lemma concat_length_nonempty {A : Type} (lists : list (list A)) :
  Forall (fun l => l <> []) lists -> List.length lists <= List.length (concat lists).
Proof.
  induction 1 as [|l lists Hl _ IH]; simpl; [lia|].
  rewrite List.length_app. destruct l; [congruence | simpl; lia].
Qed.

(** X8: a successful pass returns at least one record for every row that
    passed the filter. *)
Theorem kept_rows_contribute (table : list (gmap string pyval)) (out : list pyval) :
  load_and_process_data table = Ok out ->
  List.length (List.filter keeps table) <= List.length out.
Proof.
  intros H. apply load_rows in H as (_ & _ & lists & Hm & Hne & ->).
  rewrite <- (mapM_Ok_length _ _ _ Hm). now apply concat_length_nonempty.
Qed.

Lemma kept_rows_contribute_witness :
  load_and_process_data table_with_unparsed_row = Ok (records_of not_null_facts)
  /\ List.length (List.filter keeps table_with_unparsed_row)
     <= List.length (records_of not_null_facts).
Proof.
  assert (H : load_and_process_data table_with_unparsed_row
              = Ok (records_of not_null_facts)) by (vm_compute; reflexivity).
  split; [exact H|].
  exact (kept_rows_contribute _ _ H).
Defined.

(** ** The sidebar *)

Lemma apply_filters_filter (py_eq : pyval -> pyval -> bool)
  (s1 s2 s3 s4 : list pyval) (df : list pyval) :
  Forall is_expanded_row df ->
  apply_filters py_eq s1 s2 s3 s4 df
  = Ok (List.filter (selected py_eq s1 s2 s3 s4) df).
Proof.
  intros Hdf. unfold apply_filters.
  rewrite select_dimension_filter by (simpl; tauto || exact Hdf).
  cbn [mbind result_bind].
  rewrite select_dimension_filter
    by (simpl; tauto || (repeat apply Forall_filter; exact Hdf)).
  cbn [mbind result_bind].
  rewrite select_dimension_filter
    by (simpl; tauto || (repeat apply Forall_filter; exact Hdf)).
  cbn [mbind result_bind].
  rewrite select_dimension_filter
    by (simpl; tauto || (repeat apply Forall_filter; exact Hdf)).
  rewrite !filter_filter. f_equal. apply filter_ext. intros x.
  unfold selected. now rewrite !andb_assoc.
Qed.

Lemma filter_idempotent {A : Type} (f : A -> bool) (l : list A) :
  List.filter f (List.filter f l) = List.filter f l.
Proof.
  rewrite filter_filter. apply filter_ext. intros x. now destruct (f x).
Qed.

(** X9: on a frame of ExpandedRows the filters never raise; they return
    rows of the frame in their order, each still an ExpandedRow, and
    applying the same selections to the result changes nothing. *)
Theorem apply_filters_narrows (py_eq : pyval -> pyval -> bool)
  (s1 s2 s3 s4 : list pyval) (df : list pyval) :
  Forall is_expanded_row df ->
  exists out,
    apply_filters py_eq s1 s2 s3 s4 df = Ok out
    /\ sublist out df
    /\ Forall is_expanded_row out
    /\ apply_filters py_eq s1 s2 s3 s4 out = Ok out.
Proof.
  intros Hdf. exists (List.filter (selected py_eq s1 s2 s3 s4) df).
  split; [now apply apply_filters_filter|].
  split; [apply filter_sublist|].
  split; [now apply Forall_filter|].
  rewrite apply_filters_filter by now apply Forall_filter.
  now rewrite filter_idempotent.
Qed.

Lemma three_records_expanded : Forall is_expanded_row three_records.
Proof. repeat constructor; eexists; split; reflexivity. Qed.

Lemma apply_filters_narrows_witness :
  Forall is_expanded_row three_records
  /\ exists out,
       apply_filters atom_eq [PStr "orders"] [] [PStr "not_null"] [PNone] three_records
       = Ok out
       /\ sublist out three_records
       /\ Forall is_expanded_row out
       /\ apply_filters atom_eq [PStr "orders"] [] [PStr "not_null"] [PNone] out = Ok out.
Proof.
  split; [exact three_records_expanded|].
  exact (apply_filters_narrows atom_eq [PStr "orders"] [] [PStr "not_null"] [PNone]
           three_records three_records_expanded).
Defined.

(** *** The options of a multiselect *)

Section UniqueBy.

Context {A : Type}.
Variable eq : A -> A -> bool.

Lemma unique_fold_In (xs acc : list A) (x : A) :
  In x (fold_left (unique_add eq) xs acc) -> In x acc \/ In x xs.
Proof.
  revert acc. induction xs as [|y xs IH]; intros acc H; simpl in *; [tauto|].
  apply IH in H as [H|H]; [|tauto].
  unfold unique_add in H. destruct (existsb (eq y) acc); [tauto|].
  apply in_app_or in H as [H|[<-|[]]]; tauto.
Qed.

Lemma unique_fold_keeps (xs acc : list A) (x : A) :
  existsb (eq x) acc = true ->
  existsb (eq x) (fold_left (unique_add eq) xs acc) = true.
Proof.
  revert acc. induction xs as [|y xs IH]; intros acc H; simpl; [exact H|].
  apply IH. unfold unique_add. destruct (existsb (eq y) acc); [exact H|].
  rewrite existsb_app, H. reflexivity.
Qed.

Lemma unique_fold_covers (xs acc : list A) (x : A) :
  In x xs -> eq x x = true ->
  existsb (eq x) (fold_left (unique_add eq) xs acc) = true.
Proof.
  revert acc. induction xs as [|y xs IH]; intros acc Hx Hr; [contradiction|].
  simpl. destruct Hx as [->|Hx]; [|now apply IH].
  apply unique_fold_keeps. unfold unique_add.
  destruct (existsb (eq x) acc) eqn:E; [exact E|].
  rewrite existsb_app. simpl. rewrite Hr. now rewrite orb_true_r.
Qed.

Lemma distinct_by_snoc (acc : list A) (x : A) :
  distinct_by eq acc -> existsb (eq x) acc = false -> distinct_by eq (acc ++ [x]).
Proof.
  intros Hd Hx l1 y l2 H.
  destruct l2 as [|z l2].
  - apply app_inj_tail in H as [-> ->]. exact Hx.
  - destruct (exists_last (l := z :: l2)) as (l2' & w & Hl2); [discriminate|].
    rewrite Hl2 in H.
    replace (l1 ++ y :: l2' ++ [w]) with ((l1 ++ y :: l2') ++ [w]) in H
      by (now rewrite <- List.app_assoc).
    apply app_inj_tail in H as [-> _]. exact (Hd l1 y l2' eq_refl).
Qed.

Lemma unique_fold_distinct (xs acc : list A) :
  distinct_by eq acc -> distinct_by eq (fold_left (unique_add eq) xs acc).
Proof.
  revert acc. induction xs as [|y xs IH]; intros acc Hd; simpl; [exact Hd|].
  apply IH. unfold unique_add. destruct (existsb (eq y) acc) eqn:E; [exact Hd|].
  now apply distinct_by_snoc.
Qed.

Lemma unique_fold_sublist (xs acc : list A) :
  sublist (fold_left (unique_add eq) xs acc) (acc ++ xs).
Proof.
  revert acc. induction xs as [|y xs IH]; intros acc; simpl.
  - rewrite List.app_nil_r. reflexivity.
  - unfold unique_add. destruct (existsb (eq y) acc).
    + etransitivity; [apply IH|].
      apply sublist_app; [reflexivity | now apply sublist_cons].
    + specialize (IH (acc ++ [y])). now rewrite <- List.app_assoc in IH.
Qed.

End UniqueBy.

Lemma atom_eq_refl (v : pyval) : hashable v = true -> atom_eq v v = true.
Proof.
  destruct v as [| b | z | f | s | |]; simpl; try discriminate; intros _.
  - reflexivity.
  - now destruct b.
  - apply Z.eqb_refl.
  - destruct f as [| b | b m e]; [reflexivity | now destruct b |].
    rewrite N.eqb_refl, Z.eqb_refl. now destruct b.
  - apply String.eqb_refl.
Qed.

Lemma options_inv (py_eq : pyval -> pyval -> bool) (label : string)
  (df opts : list pyval) :
  options py_eq label df = Ok opts ->
  exists cells,
    record_column df label = Ok cells
    /\ forallb hashable cells = true
    /\ opts = unique_by py_eq cells.
Proof.
  unfold options, unique.
  destruct (record_column df label) as [cells|] eqn:Ec; [|discriminate].
  cbn [mbind result_bind].
  destruct (forallb hashable cells) eqn:E; [|discriminate].
  intros [= <-]. exists cells. repeat split; assumption.
Qed.

(** X10: the options of a multiselect are cells of its column, in the
    order of their first occurrence and without two equal values; every
    cell that equals itself is matched by an option. *)
Theorem options_spec (py_eq : pyval -> pyval -> bool) (label : string)
  (df opts : list pyval) :
  options py_eq label df = Ok opts ->
  exists cells,
    record_column df label = Ok cells
    /\ sublist opts cells
    /\ distinct_by py_eq opts
    /\ (forall c, In c cells -> py_eq c c = true -> isin py_eq opts c = true).
Proof.
  intros H. apply options_inv in H as (cells & Hc & _ & ->).
  exists cells. split; [exact Hc|]. unfold unique_by. split; [|split].
  - exact (unique_fold_sublist py_eq cells []).
  - apply unique_fold_distinct. intros [|? ?] ? ? ?; discriminate.
  - intros c Hin Hr. unfold isin. now apply unique_fold_covers.
Qed.

Lemma options_spec_witness :
  options atom_eq "TABLE" three_records = Ok [PStr "orders"; PStr "customers"]
  /\ exists cells,
       record_column three_records "TABLE" = Ok cells
       /\ sublist [PStr "orders"; PStr "customers"] cells
       /\ distinct_by atom_eq [PStr "orders"; PStr "customers"]
       /\ (forall c, In c cells -> atom_eq c c = true ->
                     isin atom_eq [PStr "orders"; PStr "customers"] c = true).
Proof.
  assert (H : options atom_eq "TABLE" three_records
              = Ok [PStr "orders"; PStr "customers"]) by (vm_compute; reflexivity).
  split; [exact H|].
  exact (options_spec atom_eq "TABLE" three_records _ H).
Defined.

Lemma record_column_In (df cells : list pyval) (label : string) :
  record_column df label = Ok cells ->
  (forall r c, In r df -> record_item r label = Ok c -> In c cells)
  /\ (forall c, In c cells -> exists r, In r df /\ record_item r label = Ok c).
Proof.
  unfold record_column. intros H. apply mapM_Ok_Forall2 in H.
  induction H as [|r c df cells Hrc _ (IH1 & IH2)].
  - split; [intros ? ? [] | intros ? []].
  - split.
    + intros r' c' [<-|Hin] Hr'; [left; congruence | right; eauto].
    + intros c' [<-|Hin]; [exists r; split; [now left | exact Hrc]|].
      destruct (IH2 c' Hin) as (r' & Hr' & Hc'). exists r'. split; [now right | exact Hc'].
Qed.

Lemma options_cover (py_eq : pyval -> pyval -> bool) (label : string)
  (df opts : list pyval) (r cell : pyval) :
  (forall v, hashable v = true -> py_eq v v = true) ->
  options py_eq label df = Ok opts ->
  In r df -> record_item r label = Ok cell ->
  isin py_eq opts cell = true.
Proof.
  intros Hrefl H Hr Hc. apply options_inv in H as (cells & Hcol & Hh & ->).
  destruct (record_column_In _ _ _ Hcol) as [Hin _].
  unfold isin, unique_by. apply unique_fold_covers; [eauto|].
  apply Hrefl. rewrite forallb_forall in Hh. eauto.
Qed.

Lemma dimension_ok_options (py_eq : pyval -> pyval -> bool) (label : string)
  (df opts : list pyval) (r : pyval) :
  (forall v, hashable v = true -> py_eq v v = true) ->
  In label expanded_fields -> Forall is_expanded_row df ->
  options py_eq label df = Ok opts ->
  In r df -> dimension_ok py_eq label opts r = true.
Proof.
  intros Hrefl Hl Hdf Ho Hr. unfold dimension_ok.
  destruct opts as [|o opts]; [reflexivity|].
  rewrite List.Forall_forall in Hdf.
  destruct (expanded_row_item r label (Hdf r Hr) Hl) as [cell Hc].
  rewrite Hc. exact (options_cover py_eq label df _ r cell Hrefl Ho Hr Hc).
Qed.

(** X11: selecting every offered value in all four multiselects keeps
    the whole frame. *)
Theorem select_all_options (py_eq : pyval -> pyval -> bool) (df : list pyval)
  (o1 o2 o3 o4 : list pyval) :
  (forall v, hashable v = true -> py_eq v v = true) ->
  Forall is_expanded_row df ->
  options py_eq "TABLE" df = Ok o1 ->
  options py_eq "COLUMN" df = Ok o2 ->
  options py_eq "TEST_NAME" df = Ok o3 ->
  options py_eq "CRITERIA" df = Ok o4 ->
  apply_filters py_eq o1 o2 o3 o4 df = Ok df.
Proof.
  intros Hrefl Hdf H1 H2 H3 H4.
  rewrite apply_filters_filter by exact Hdf. f_equal.
  apply forallb_filter_id. apply forallb_forall. intros r Hr. unfold selected.
  rewrite (dimension_ok_options py_eq "TABLE" df o1 r),
    (dimension_ok_options py_eq "COLUMN" df o2 r),
    (dimension_ok_options py_eq "TEST_NAME" df o3 r),
    (dimension_ok_options py_eq "CRITERIA" df o4 r);
    first [reflexivity | assumption | simpl; tauto].
Qed.

Lemma select_all_options_witness :
  (forall v, hashable v = true -> atom_eq v v = true)
  /\ Forall is_expanded_row three_records
  /\ options atom_eq "TABLE" three_records = Ok [PStr "orders"; PStr "customers"]
  /\ options atom_eq "COLUMN" three_records = Ok [PStr "id"; PStr "email"]
  /\ options atom_eq "TEST_NAME" three_records = Ok [PStr "not_null"; PStr "unique"]
  /\ options atom_eq "CRITERIA" three_records = Ok [PNone]
  /\ apply_filters atom_eq [PStr "orders"; PStr "customers"] [PStr "id"; PStr "email"]
       [PStr "not_null"; PStr "unique"] [PNone] three_records
     = Ok three_records.
Proof.
  split; [exact atom_eq_refl|]. split; [exact three_records_expanded|].
  repeat (split; [vm_compute; reflexivity|]).
  apply (select_all_options atom_eq three_records);
    first [exact atom_eq_refl | exact three_records_expanded | vm_compute; reflexivity].
Defined.

(** X12: a non-empty selection of offered values in one multiselect never
    empties the frame: the row an option came from is kept. *)
Theorem offered_selection_keeps_a_row (py_eq : pyval -> pyval -> bool)
  (label : string) (df opts sel out : list pyval) :
  (forall v, hashable v = true -> py_eq v v = true) ->
  In label expanded_fields ->
  Forall is_expanded_row df ->
  options py_eq label df = Ok opts ->
  sel <> [] ->
  (forall v, In v sel -> In v opts) ->
  select_dimension py_eq label sel df = Ok out ->
  out <> [].
Proof.
  intros Hrefl Hl Hdf Ho Hne Hsub Hs.
  rewrite select_dimension_filter in Hs by assumption. injection Hs as <-.
  destruct sel as [|v sel]; [congruence|].
  pose proof (Hsub v (or_introl eq_refl)) as Hv.
  apply options_inv in Ho as (cells & Hcol & Hh & ->).
  apply unique_fold_In in Hv as [[]|Hv].
  destruct (record_column_In _ _ _ Hcol) as [_ Hrow].
  destruct (Hrow v Hv) as (r & Hr & Hrv).
  intros Hnil.
  assert (Hin : In r (List.filter (dimension_ok py_eq label (v :: sel)) df)).
  { apply filter_In. split; [exact Hr|]. unfold dimension_ok. rewrite Hrv.
    unfold isin. simpl. rewrite Hrefl; [reflexivity|].
    rewrite forallb_forall in Hh. now apply Hh. }
  rewrite Hnil in Hin. contradiction.
Qed.

Lemma offered_selection_keeps_a_row_witness :
  (forall v, hashable v = true -> atom_eq v v = true)
  /\ In "TABLE" expanded_fields
  /\ Forall is_expanded_row three_records
  /\ options atom_eq "TABLE" three_records = Ok [PStr "orders"; PStr "customers"]
  /\ [PStr "customers"] <> []
  /\ (forall v, In v [PStr "customers"] -> In v [PStr "orders"; PStr "customers"])
  /\ select_dimension atom_eq "TABLE" [PStr "customers"] three_records
     = Ok [customers_record]
  /\ [customers_record] <> [].
Proof.
  assert (Ho : options atom_eq "TABLE" three_records
               = Ok [PStr "orders"; PStr "customers"]) by (vm_compute; reflexivity).
  assert (Hs : select_dimension atom_eq "TABLE" [PStr "customers"] three_records
               = Ok [customers_record]) by (vm_compute; reflexivity).
  assert (Hsub : forall v, In v [PStr "customers"] ->
                           In v [PStr "orders"; PStr "customers"])
    by (intros v [<-|[]]; simpl; tauto).
  split; [exact atom_eq_refl|]. split; [simpl; tauto|].
  split; [exact three_records_expanded|]. split; [exact Ho|].
  split; [discriminate|]. split; [exact Hsub|]. split; [exact Hs|].
  apply (offered_selection_keeps_a_row atom_eq "TABLE" three_records
           [PStr "orders"; PStr "customers"] [PStr "customers"] [customers_record]
           atom_eq_refl); first [assumption | simpl; tauto | discriminate
                                | exact three_records_expanded].
Defined.

(** *** Cells that cannot be hashed *)

Lemma expanded_record_column (df : list pyval) (label : string) :
  In label expanded_fields -> Forall is_expanded_row df ->
  exists cells, record_column df label = Ok cells.
Proof.
  intros Hl Hdf. unfold record_column.
  destruct (mapM (fun r => record_item r label) df) as [cells|e] eqn:E; [eauto|].
  apply mapM_Err_In in E as (r & Hr & He). rewrite List.Forall_forall in Hdf.
  destruct (expanded_row_item r label (Hdf r Hr) Hl) as [cell Hc]. congruence.
Qed.

Lemma options_total (py_eq : pyval -> pyval -> bool) (label : string) (df : list pyval) :
  In label expanded_fields -> Forall is_expanded_row df ->
  (exists opts, options py_eq label df = Ok opts)
  \/ options py_eq label df = Err TypeError.
Proof.
  intros Hl Hdf. destruct (expanded_record_column df label Hl Hdf) as [cells Hc].
  unfold options, unique. rewrite Hc. cbn [mbind result_bind].
  destruct (forallb hashable cells); eauto.
Qed.

Lemma options_hashable (py_eq : pyval -> pyval -> bool) (label : string) (df : list pyval) :
  In label expanded_fields -> Forall is_expanded_row df ->
  (forall r cell, In r df -> record_item r label = Ok cell -> hashable cell = true) ->
  exists opts, options py_eq label df = Ok opts.
Proof.
  intros Hl Hdf Hh. destruct (expanded_record_column df label Hl Hdf) as [cells Hc].
  unfold options, unique. rewrite Hc. cbn [mbind result_bind].
  destruct (record_column_In _ _ _ Hc) as [_ Hrow].
  assert (forallb hashable cells = true) as ->; [|eauto].
  apply forallb_forall. intros c Hin. destruct (Hrow c Hin) as (r & Hr & Hrc). eauto.
Qed.

Lemma options_unhashable (py_eq : pyval -> pyval -> bool) (label : string)
  (df : list pyval) (r cell : pyval) :
  Forall is_expanded_row df -> In label expanded_fields ->
  In r df -> record_item r label = Ok cell -> hashable cell = false ->
  options py_eq label df = Err TypeError.
Proof.
  intros Hdf Hl Hr Hc Hh. destruct (expanded_record_column df label Hl Hdf) as [cells Hcol].
  unfold options, unique. rewrite Hcol. cbn [mbind result_bind].
  destruct (record_column_In _ _ _ Hcol) as [Hin _].
  destruct (forallb hashable cells) eqn:E; [|reflexivity].
  rewrite forallb_forall in E. rewrite (E cell (Hin r cell Hr Hc)) in Hh. discriminate.
Qed.

(** X13: on a frame of ExpandedRows the sidebar raises [TypeError] as soon
    as a TABLE, COLUMN, TEST_NAME or CRITERIA cell is a list or an object
    (no option list can be built), whatever is selected; otherwise it
    applies the selections, and with the reset button pressed it returns
    the whole frame. *)
Theorem sidebar_outcome (py_eq : pyval -> pyval -> bool) (reset : bool)
  (s1 s2 s3 s4 : list pyval) (df : list pyval) :
  Forall is_expanded_row df ->
  ((exists r label cell,
       In r df /\ In label dimensions /\ record_item r label = Ok cell
       /\ hashable cell = false) ->
   sidebar py_eq reset s1 s2 s3 s4 df = Err TypeError)
  /\ ((forall r label cell,
         In r df -> In label dimensions -> record_item r label = Ok cell ->
         hashable cell = true) ->
      sidebar py_eq reset s1 s2 s3 s4 df
      = (if reset then Ok df else apply_filters py_eq s1 s2 s3 s4 df)).
Proof.
  intros Hdf.
  assert (Hfields : forall label, In label dimensions -> In label expanded_fields)
    by (intros label [<-|[<-|[<-|[<-|[]]]]]; simpl; tauto).
  assert (Hreset : apply_filters py_eq [] [] [] [] df = Ok df).
  { rewrite apply_filters_filter by exact Hdf. f_equal.
    apply forallb_filter_id. apply forallb_forall. reflexivity. }
  split.
  - intros (r & label & cell & Hr & Hl & Hc & Hh).
    pose proof (options_unhashable py_eq label df r cell Hdf (Hfields _ Hl) Hr Hc Hh)
      as Herr.
    unfold sidebar.
    destruct (options_total py_eq "TABLE" df) as [[o1 H1]|H1];
      [simpl; tauto | exact Hdf | | now rewrite H1].
    destruct (options_total py_eq "COLUMN" df) as [[o2 H2]|H2];
      [simpl; tauto | exact Hdf | | now rewrite H1, H2].
    destruct (options_total py_eq "TEST_NAME" df) as [[o3 H3]|H3];
      [simpl; tauto | exact Hdf | | now rewrite H1, H2, H3].
    destruct (options_total py_eq "CRITERIA" df) as [[o4 H4]|H4];
      [simpl; tauto | exact Hdf | | now rewrite H1, H2, H3, H4].
    destruct Hl as [<-|[<-|[<-|[<-|[]]]]]; congruence.
  - intros Hh. unfold sidebar.
    destruct (options_hashable py_eq "TABLE" df) as [o1 ->];
      [simpl; tauto | exact Hdf | intros r c Hr Hc; apply (Hh r "TABLE" c);
                                   simpl; tauto |].
    destruct (options_hashable py_eq "COLUMN" df) as [o2 ->];
      [simpl; tauto | exact Hdf | intros r c Hr Hc; apply (Hh r "COLUMN" c);
                                   simpl; tauto |].
    destruct (options_hashable py_eq "TEST_NAME" df) as [o3 ->];
      [simpl; tauto | exact Hdf | intros r c Hr Hc; apply (Hh r "TEST_NAME" c);
                                   simpl; tauto |].
    destruct (options_hashable py_eq "CRITERIA" df) as [o4 ->];
      [simpl; tauto | exact Hdf | intros r c Hr Hc; apply (Hh r "CRITERIA" c);
                                   simpl; tauto |].
    cbn [mbind result_bind]. destruct reset; [exact Hreset | reflexivity].
Qed.

Lemma sidebar_outcome_witness :
  Forall is_expanded_row [orders_record; list_criteria_record]
  /\ (exists r label cell,
        In r [orders_record; list_criteria_record] /\ In label dimensions
        /\ record_item r label = Ok cell /\ hashable cell = false)
  /\ sidebar atom_eq true [PStr "orders"] [] [] [] [orders_record; list_criteria_record]
     = Err TypeError.
Proof.
  assert (Hdf : Forall is_expanded_row [orders_record; list_criteria_record])
    by (repeat constructor; eexists; split; reflexivity).
  assert (Hbad : exists r label cell,
             In r [orders_record; list_criteria_record] /\ In label dimensions
             /\ record_item r label = Ok cell /\ hashable cell = false).
  { exists list_criteria_record, "CRITERIA", (PList [PStr "open"; PStr "closed"]).
    repeat split; simpl; tauto. }
  split; [exact Hdf|]. split; [exact Hbad|].
  exact (proj1 (sidebar_outcome atom_eq true [PStr "orders"] [] [] [] _ Hdf) Hbad).
Defined.

(** ** The grouped views *)

Section Groups.

Context {K V : Type}.
Variable eq : K -> K -> bool.
Hypothesis eq_sym : forall a b, eq a b = eq b a.
Hypothesis eq_trans : forall a b c, eq a b = true -> eq b c = true -> eq a c = true.

Lemma distinct_by_tail (u : K) (us : list K) :
  distinct_by eq (u :: us) ->
  distinct_by eq us /\ forall u', In u' us -> eq u' u = false.
Proof.
  intros Hd. split.
  - intros l1 x l2 ->. specialize (Hd (u :: l1) x l2 eq_refl).
    simpl in Hd. now apply orb_false_iff in Hd.
  - intros u' Hin. apply in_split in Hin as (l1 & l2 & ->).
    specialize (Hd (u :: l1) u' l2 eq_refl). simpl in Hd.
    now apply orb_false_iff in Hd.
Qed.

Lemma filter_partition (f : K * V -> bool) (l : list (K * V)) :
  Permutation (List.filter f l ++ List.filter (fun x => negb (f x)) l) l.
Proof.
  induction l as [|x l IH]; simpl; [constructor|].
  destruct (f x); simpl; [now constructor|].
  apply Permutation_sym, Permutation_cons_app, Permutation_sym, IH.
Qed.

Lemma flat_map_ext_In {A B : Type} (f g : A -> list B) (l : list A) :
  (forall a, In a l -> f a = g a) -> flat_map f l = flat_map g l.
Proof.
  induction l as [|a l IH]; intros H; simpl; [reflexivity|].
  rewrite (H a (or_introl eq_refl)), IH; [reflexivity|].
  intros b Hb. apply H. now right.
Qed.

(** Distinct keys that cover the entries split them. *)
Lemma groups_partition (us : list K) (entries : list (K * V)) :
  distinct_by eq us ->
  (forall kc, In kc entries -> existsb (eq (fst kc)) us = true) ->
  Permutation
    (flat_map (fun u => List.filter (fun kc => eq (fst kc) u) entries) us)
    entries.
Proof.
  revert entries. induction us as [|u us IH]; intros entries Hd Hc.
  - destruct entries as [|kc entries]; [constructor|].
    specialize (Hc kc (or_introl eq_refl)). discriminate.
  - destruct (distinct_by_tail u us Hd) as [Hd' Hu]. simpl.
    set (rest := List.filter (fun kc => negb (eq (fst kc) u)) entries).
    rewrite (flat_map_ext_In
               (fun u0 => List.filter (fun kc => eq (fst kc) u0) entries)
               (fun u0 => List.filter (fun kc => eq (fst kc) u0) rest)).
    + eapply Permutation_trans; [|apply (filter_partition (fun kc => eq (fst kc) u))].
      apply Permutation_app_head. apply IH; [exact Hd'|].
      intros kc Hin. apply filter_In in Hin as [Hin Hne].
      specialize (Hc kc Hin). simpl in Hc.
      apply negb_true_iff in Hne. now rewrite Hne in Hc.
    + intros u' Hu'. unfold rest. rewrite filter_filter.
      apply filter_ext. intros kc.
      destruct (eq (fst kc) u') eqn:E1; [|now rewrite andb_false_r].
      destruct (eq (fst kc) u) eqn:E2; [|reflexivity].
      rewrite eq_sym in E1. specialize (Hu u' Hu').
      rewrite (eq_trans _ _ _ E1 E2) in Hu. discriminate.
Qed.

End Groups.

Section Sums.

Variable plus : pyval -> pyval -> pyval.
Variable numeric : pyval -> Prop.
Hypothesis numeric_zero : numeric (PInt 0).
Hypothesis numeric_plus : forall a b, numeric a -> numeric b -> numeric (plus a b).
Hypothesis plus_zero : forall a, numeric a -> plus (PInt 0) a = a.
Hypothesis plus_comm : forall a b, numeric a -> numeric b -> plus a b = plus b a.
Hypothesis plus_assoc :
  forall a b c, numeric a -> numeric b -> numeric c ->
                plus (plus a b) c = plus a (plus b c).

Lemma fold_plus_numeric (l : list pyval) (acc : pyval) :
  numeric acc -> Forall numeric l -> numeric (fold_left plus l acc).
Proof.
  revert acc. induction l as [|x l IH]; intros acc Ha Hl; simpl; [exact Ha|].
  apply List.Forall_cons_iff in Hl as [Hx Hl]. apply IH; [|exact Hl].
  now apply numeric_plus.
Qed.

Lemma fold_plus_acc (l : list pyval) (acc : pyval) :
  numeric acc -> Forall numeric l ->
  fold_left plus l acc = plus acc (column_sum plus l).
Proof.
  unfold column_sum. revert acc.
  induction l as [|x l IH]; intros acc Ha Hl; simpl.
  - now rewrite plus_comm, plus_zero.
  - apply List.Forall_cons_iff in Hl as [Hx Hl].
    rewrite (IH (plus acc x)), (IH (plus (PInt 0) x))
      by (try apply numeric_plus; assumption).
    rewrite (plus_zero x Hx).
    apply plus_assoc; try assumption. now apply fold_plus_numeric.
Qed.

Lemma column_sum_numeric (l : list pyval) :
  Forall numeric l -> numeric (column_sum plus l).
Proof. intros H. now apply fold_plus_numeric. Qed.

Lemma column_sum_cons (x : pyval) (l : list pyval) :
  numeric x -> Forall numeric l ->
  column_sum plus (x :: l) = plus x (column_sum plus l).
Proof.
  intros Hx Hl. unfold column_sum at 1. simpl.
  rewrite fold_plus_acc by (try apply numeric_plus; assumption).
  now rewrite plus_zero.
Qed.

Lemma column_sum_app (l1 l2 : list pyval) :
  Forall numeric l1 -> Forall numeric l2 ->
  column_sum plus (l1 ++ l2) = plus (column_sum plus l1) (column_sum plus l2).
Proof.
  intros H1 H2. unfold column_sum at 1. rewrite fold_left_app.
  rewrite fold_plus_acc; [reflexivity | now apply fold_plus_numeric | exact H2].
Qed.

Lemma column_sum_Permutation (l l' : list pyval) :
  Permutation l l' -> Forall numeric l -> column_sum plus l = column_sum plus l'.
Proof.
  induction 1 as [|x l l' Hp IH|x y l|l1 l2 l3 Hp1 IH1 Hp2 IH2]; intros Hl.
  - reflexivity.
  - apply List.Forall_cons_iff in Hl as [Hx Hl].
    rewrite !column_sum_cons; try assumption; [now rewrite IH|].
    now apply (Permutation_Forall Hp).
  - apply List.Forall_cons_iff in Hl as [Hy Hl].
    apply List.Forall_cons_iff in Hl as [Hx Hl].
    rewrite !column_sum_cons; try (constructor; assumption); try assumption.
    pose proof (column_sum_numeric l Hl) as Hs.
    rewrite <- !plus_assoc by assumption. f_equal. now apply plus_comm.
  - rewrite IH1 by exact Hl. apply IH2. now apply (Permutation_Forall Hp1).
Qed.

Lemma column_sum_concat (ls : list (list pyval)) :
  Forall (Forall numeric) ls ->
  column_sum plus (map (column_sum plus) ls) = column_sum plus (concat ls).
Proof.
  induction 1 as [|l ls Hl Hls IH]; [reflexivity|]. simpl.
  rewrite column_sum_cons, column_sum_app, IH; try assumption.
  - reflexivity.
  - now apply Forall_concat.
  - now apply column_sum_numeric.
  - clear IH. induction Hls; constructor; [now apply column_sum_numeric | assumption].
Qed.

End Sums.

Lemma keyed_cell_occurrences (labels : list string) (r : pyval)
  (key : list pyval) (cell : pyval) :
  keyed_cell labels r = Ok (key, cell) -> record_item r "OCCURRENCES" = Ok cell.
Proof.
  unfold keyed_cell. destruct (mapM _ labels); [|discriminate].
  cbn [mbind result_bind].
  destruct (record_item r "OCCURRENCES"); [|discriminate].
  cbn [mbind result_bind]. now intros [= _ ->].
Qed.

Lemma flat_map_map_snd {A B C : Type} (f : A -> list (B * C)) (l : list A) :
  flat_map (fun a => map snd (f a)) l = map snd (flat_map f l).
Proof.
  induction l as [|a l IH]; simpl; [reflexivity|].
  now rewrite List.map_app, IH.
Qed.

Lemma grouped_cells_inv (labels : list string) (df : list pyval)
  (entries : list (list pyval * pyval)) :
  grouped_cells labels df = Ok entries ->
  exists keyed,
    mapM (keyed_cell labels) df = Ok keyed
    /\ forallb (fun kc => forallb hashable (fst kc)) keyed = true
    /\ entries = List.filter key_present keyed.
Proof.
  unfold grouped_cells.
  destruct (mapM (keyed_cell labels) df) as [keyed|] eqn:Ek; [|discriminate].
  cbn [mbind result_bind].
  destruct (forallb _ keyed) eqn:E; [|discriminate].
  intros [= <-]. exists keyed. repeat split; assumption.
Qed.

(** X14: with an equality of keys that is an equivalence and an addition
    that is associative and commutative on the numbers of the column, the
    sums of the groups add up to the sum of OCCURRENCES over the rows whose
    key has no missing value: every such row is counted in exactly one
    group, and a row with a missing value in its key in none. *)
Theorem groupby_sum_total
  (key_eq : list pyval -> list pyval -> bool)
  (sort_keys : list (list pyval) -> list (list pyval))
  (plus : pyval -> pyval -> pyval) (numeric : pyval -> Prop)
  (labels : list string) (df : list pyval) (sums : list (list pyval * pyval)) :
  (forall l, Permutation (sort_keys l) l) ->
  (forall k, forallb hashable k = true -> key_eq k k = true) ->
  (forall a b, key_eq a b = key_eq b a) ->
  (forall a b c, key_eq a b = true -> key_eq b c = true -> key_eq a c = true) ->
  numeric (PInt 0) ->
  (forall a b, numeric a -> numeric b -> numeric (plus a b)) ->
  (forall a, numeric a -> plus (PInt 0) a = a) ->
  (forall a b, numeric a -> numeric b -> plus a b = plus b a) ->
  (forall a b c, numeric a -> numeric b -> numeric c ->
                 plus (plus a b) c = plus a (plus b c)) ->
  (forall r c, In r df -> record_item r "OCCURRENCES" = Ok c -> numeric c) ->
  groupby_sum key_eq sort_keys plus labels df = Ok sums ->
  exists keyed,
    mapM (keyed_cell labels) df = Ok keyed
    /\ column_sum plus (map snd sums)
       = column_sum plus (map snd (List.filter key_present keyed)).
Proof.
  intros Hsort Hrefl Hsym Htrans N0 Nplus Pzero Pcomm Passoc Hcells H.
  unfold groupby_sum, groupby in H.
  destruct (grouped_cells labels df) as [entries|] eqn:Eg; [|discriminate].
  cbn [mbind result_bind] in H. injection H as <-.
  apply grouped_cells_inv in Eg as (keyed & Hk & Hh & ->).
  exists keyed. split; [exact Hk|].
  set (entries := List.filter key_present keyed).
  set (us := unique_by key_eq (map fst entries)).
  assert (Hnum : Forall numeric (map snd entries)).
  { apply List.Forall_forall. intros c Hc.
    apply in_map_iff in Hc as ([k c'] & <- & Hin).
    apply filter_In in Hin as [Hin _].
    apply mapM_Ok_Forall2 in Hk. clear -Hk Hin Hcells.
    induction Hk as [|r kc df keyed Hr _ IH]; [contradiction|].
    destruct Hin as [->|Hin].
    - apply (Hcells r); [now left|]. exact (keyed_cell_occurrences _ _ _ _ Hr).
    - apply IH; [|exact Hin]. intros r' c Hr'. apply Hcells. now right. }
  assert (Hgroup : forall u, Forall numeric (group_of key_eq entries u)).
  { intros u. apply List.Forall_forall. intros c Hc.
    rewrite List.Forall_forall in Hnum. apply Hnum.
    unfold group_of in Hc. apply in_map_iff in Hc as (kc & <- & Hin).
    apply filter_In in Hin as [Hin _]. now apply in_map. }
  rewrite !map_map. cbn [fst snd].
  rewrite <- (map_map (group_of key_eq entries) (column_sum plus)).
  rewrite (column_sum_concat plus numeric) by
    (try assumption; apply List.Forall_forall; intros l Hl;
     apply in_map_iff in Hl as (u & <- & _); apply Hgroup).
  apply (column_sum_Permutation plus numeric); try assumption.
  - rewrite <- flat_map_concat_map.
    eapply Permutation_trans; [apply Permutation_flat_map, Hsort|].
    unfold group_of. rewrite flat_map_map_snd. apply Permutation_map.
    apply groups_partition; [exact Hsym | exact Htrans | |].
    + apply unique_fold_distinct. intros [|? ?] ? ? ?; discriminate.
    + intros kc Hin. apply unique_fold_covers; [now apply in_map|].
      apply Hrefl. apply filter_In in Hin as [Hin _].
      rewrite forallb_forall in Hh. exact (Hh kc Hin).
  - apply Forall_concat. apply List.Forall_forall. intros l Hl.
    apply in_map_iff in Hl as (u & <- & _). apply Hgroup.
Qed.

Lemma atom_eq_eq (a b : pyval) : atom_eq a b = true -> a = b.
Proof.
  destruct a as [|x|x|f|x|l|d], b as [|y|y|g|y|l'|d']; simpl; intros H;
    try discriminate; try (destruct f as [|?|? ? ?]; discriminate).
  - reflexivity.
  - now rewrite (Bool.eqb_prop _ _ H).
  - apply Z.eqb_eq in H. now subst.
  - destruct f as [|x|s m e], g as [|y|s' m' e']; try discriminate.
    + reflexivity.
    + now rewrite (Bool.eqb_prop _ _ H).
    + apply andb_true_iff in H as [H He].
      apply andb_true_iff in H as [Hs Hm].
      apply Z.eqb_eq in He. apply N.eqb_eq in Hm.
      rewrite (Bool.eqb_prop _ _ Hs). now subst.
  - apply String.eqb_eq in H. now subst.
Qed.

Lemma atom_key_eq_eq (a b : list pyval) : atom_key_eq a b = true -> a = b.
Proof.
  revert b. induction a as [|x a IH]; intros [|y b]; simpl; try discriminate.
  - reflexivity.
  - intros H. apply andb_true_iff in H as [Hx Ha].
    now rewrite (atom_eq_eq _ _ Hx), (IH _ Ha).
Qed.

Lemma atom_key_eq_refl (k : list pyval) :
  forallb hashable k = true -> atom_key_eq k k = true.
Proof.
  induction k as [|x k IH]; simpl; [reflexivity|].
  intros H. apply andb_true_iff in H as [Hx Hk].
  now rewrite (atom_eq_refl x Hx), IH.
Qed.

Lemma atom_eq_sym (a b : pyval) : atom_eq a b = atom_eq b a.
Proof.
  destruct (atom_eq a b) eqn:E1.
  - pose proof (atom_eq_eq _ _ E1) as Heq. subst b. now rewrite E1.
  - destruct (atom_eq b a) eqn:E2; [|reflexivity].
    pose proof (atom_eq_eq _ _ E2) as Heq. subst b. congruence.
Qed.

Lemma atom_key_eq_sym (a b : list pyval) : atom_key_eq a b = atom_key_eq b a.
Proof.
  revert b. induction a as [|x a IH]; intros [|y b]; simpl; try reflexivity.
  now rewrite atom_eq_sym, IH.
Qed.

Lemma atom_key_eq_trans (a b c : list pyval) :
  atom_key_eq a b = true -> atom_key_eq b c = true -> atom_key_eq a c = true.
Proof. intros H1 H2. apply atom_key_eq_eq in H1 as ->. exact H2. Qed.

Lemma int_plus_facts :
  is_int (PInt 0)
  /\ (forall a b, is_int a -> is_int b -> is_int (int_plus a b))
  /\ (forall a, is_int a -> int_plus (PInt 0) a = a)
  /\ (forall a b, is_int a -> is_int b -> int_plus a b = int_plus b a)
  /\ (forall a b c, is_int a -> is_int b -> is_int c ->
                    int_plus (int_plus a b) c = int_plus a (int_plus b c)).
Proof.
  unfold is_int. repeat split.
  - now exists 0%Z.
  - intros a b [x ->] [y ->]. now exists (x + y)%Z.
  - now intros a [x ->].
  - intros a b [x ->] [y ->]. simpl. now rewrite Z.add_comm.
  - intros a b c [x ->] [y ->] [z ->]. simpl. now rewrite Z.add_assoc.
Qed.

Lemma grouped_frame_occurrences (r c : pyval) :
  In r grouped_frame -> record_item r "OCCURRENCES" = Ok c -> is_int c.
Proof.
  intros [<-|[<-|[<-|[<-|[]]]]] [= <-]; eexists; reflexivity.
Qed.

Lemma groupby_sum_total_witness :
  groupby_sum atom_key_eq (@rev (list pyval)) int_plus ["TABLE"] grouped_frame
  = Ok [([PStr "customers"], PInt 4); ([PStr "orders"], PInt 9)]
  /\ exists keyed,
       mapM (keyed_cell ["TABLE"]) grouped_frame = Ok keyed
       /\ column_sum int_plus
            (map snd [([PStr "customers"], PInt 4); ([PStr "orders"], PInt 9)])
          = column_sum int_plus (map snd (List.filter key_present keyed)).
Proof.
  assert (H : groupby_sum atom_key_eq (@rev (list pyval)) int_plus ["TABLE"] grouped_frame
              = Ok [([PStr "customers"], PInt 4); ([PStr "orders"], PInt 9)])
    by (vm_compute; reflexivity).
  split; [exact H|].
  destruct int_plus_facts as (N0 & Nplus & Pzero & Pcomm & Passoc).
  exact (groupby_sum_total atom_key_eq (@rev (list pyval)) int_plus is_int ["TABLE"]
           grouped_frame _
           (fun l => Permutation_sym (Permutation_rev l))
           atom_key_eq_refl atom_key_eq_sym atom_key_eq_trans
           N0 Nplus Pzero Pcomm Passoc grouped_frame_occurrences H).
Defined.

Lemma all_na_grouped_cells (labels : list string) (df : list pyval) :
  (forall r, In r df ->
     exists key cell, keyed_cell labels r = Ok (key, cell)
                      /\ forallb hashable key = true
                      /\ existsb is_na key = true) ->
  grouped_cells labels df = Ok [].
Proof.
  intros H.
  assert (Hk : exists keyed,
             mapM (keyed_cell labels) df = Ok keyed
             /\ Forall (fun kc => forallb hashable (fst kc) = true
                                  /\ existsb is_na (fst kc) = true) keyed).
  { induction df as [|r df IH].
    - exists []. split; [reflexivity | constructor].
    - destruct IH as (keyed & Hm & Hf); [intros; apply H; now right|].
      destruct (H r (or_introl eq_refl)) as (key & cell & Hr & Hh & Hna).
      exists ((key, cell) :: keyed). cbn [mapM]. rewrite Hr, Hm.
      split; [reflexivity | constructor; [split; assumption | exact Hf]]. }
  destruct Hk as (keyed & Hm & Hf). unfold grouped_cells. rewrite Hm.
  cbn [mbind result_bind].
  assert (forallb (fun kc => forallb hashable (fst kc)) keyed = true) as ->.
  { apply forallb_forall. intros kc Hin.
    exact (proj1 (proj1 (List.Forall_forall _ _) Hf kc Hin)). }
  f_equal. clear Hm. induction Hf as [|kc keyed [_ Hna] _ IH]; [reflexivity|].
  simpl. now rewrite Hna.
Qed.

(** X15: when every row has a missing value (null or NaN) in one of the
    grouping columns, the grouped sums are empty; so are the summary table
    and the summary export of a frame whose CRITERIA are all null. *)
Theorem groupby_sum_all_na
  (key_eq : list pyval -> list pyval -> bool)
  (sort_keys : list (list pyval) -> list (list pyval))
  (plus : pyval -> pyval -> pyval) (labels : list string) (df : list pyval) :
  (forall l, Permutation (sort_keys l) l) ->
  (forall r, In r df ->
     exists key cell, keyed_cell labels r = Ok (key, cell)
                      /\ forallb hashable key = true
                      /\ existsb is_na key = true) ->
  groupby_sum key_eq sort_keys plus labels df = Ok [].
Proof.
  intros Hsort H. unfold groupby_sum, groupby.
  rewrite (all_na_grouped_cells labels df H). cbn [mbind result_bind map].
  unfold unique_by. cbn [fold_left].
  now rewrite (Permutation_nil (Permutation_sym (Hsort []))).
Qed.

Lemma groupby_sum_all_na_witness :
  (forall l : list (list pyval), Permutation (rev l) l)
  /\ summary_df atom_key_eq (@rev (list pyval)) int_plus [orders_record; customers_record]
     = Ok [].
Proof.
  assert (Hs : forall l : list (list pyval), Permutation (rev l) l)
    by (intros l; apply Permutation_sym, Permutation_rev).
  split; [exact Hs|].
  apply (groupby_sum_all_na atom_key_eq (@rev (list pyval)) int_plus); [exact Hs|].
  intros r [<-|[<-|[]]]; eexists; eexists; (split; [reflexivity|]);
    split; reflexivity.
Defined.

(** ** The view toggle *)

Lemma run_session_modes (clicks : list bool) :
  run_session (Some "overview") clicks
  = Some (if Nat.even (List.length (List.filter (fun b => b) clicks))
          then "overview" else "detail")
  /\ run_session (Some "detail") clicks
     = Some (if Nat.even (List.length (List.filter (fun b => b) clicks))
             then "detail" else "overview").
Proof.
  unfold run_session. induction clicks as [|c clicks [IH1 IH2]]; [split; reflexivity|].
  destruct c; cbn [fold_left List.filter List.length].
  - change (render (Some "overview") true) with (Some "detail").
    change (render (Some "detail") true) with (Some "overview").
    rewrite IH1, IH2, Nat.even_succ, <- Nat.negb_even.
    split; now destruct (Nat.even _).
  - change (render (Some "overview") false) with (Some "overview").
    change (render (Some "detail") false) with (Some "detail").
    now rewrite IH1, IH2.
Qed.

(** X16: in a session that starts without a view mode, after any
    interactions the view is the overview if the button of the current
    view was pressed an even number of times, and the detail view
    otherwise; the stored mode is never anything else. *)
Theorem run_session_parity (c : bool) (clicks : list bool) :
  run_session None (c :: clicks)
  = Some (if Nat.even (List.length (List.filter (fun b => b) (c :: clicks)))
          then "overview" else "detail").
Proof.
  unfold run_session. cbn [fold_left].
  destruct (run_session_modes clicks) as [H1 H2]. unfold run_session in H1, H2.
  destruct c; cbn [List.filter List.length].
  - change (render None true) with (Some "detail").
    rewrite H2, Nat.even_succ, <- Nat.negb_even. now destruct (Nat.even _).
  - change (render None false) with (Some "overview"). exact H1.
Qed.

(** ** The Record Filter, applied again *)



(** ** The metrics and the charts *)

Section Counting.

Variable py_eq : pyval -> pyval -> bool.
Variable key_eq : list pyval -> list pyval -> bool.
Hypothesis key_eq_single : forall a b, key_eq [a] [b] = py_eq a b.
Hypothesis py_eq_na : forall a b, py_eq a b = true -> is_na a = is_na b.

Lemma unique_fold_single (xs acc : list pyval) :
  fold_left (unique_add key_eq) (map (fun c => [c]) xs) (map (fun c => [c]) acc)
  = map (fun c => [c]) (fold_left (unique_add py_eq) xs acc).
Proof.
  revert acc. induction xs as [|x xs IH]; intros acc; simpl; [reflexivity|].
  rewrite <- IH. f_equal. unfold unique_add.
  assert (existsb (key_eq [x]) (map (fun c => [c]) acc) = existsb (py_eq x) acc) as ->.
  { induction acc as [|a acc IHa]; simpl; [reflexivity|].
    now rewrite key_eq_single, IHa. }
  destruct (existsb (py_eq x) acc); [reflexivity|].
  now rewrite List.map_app.
Qed.

Lemma existsb_present (x : pyval) (acc : list pyval) :
  is_na x = false ->
  existsb (py_eq x) (List.filter (fun v => negb (is_na v)) acc)
  = existsb (py_eq x) acc.
Proof.
  intros Hx. induction acc as [|a acc IH]; simpl; [reflexivity|].
  destruct (is_na a) eqn:Ea; simpl; rewrite IH; [|reflexivity].
  destruct (py_eq x a) eqn:E; [|reflexivity].
  apply py_eq_na in E. congruence.
Qed.

Lemma unique_fold_present (xs acc : list pyval) :
  List.filter (fun v => negb (is_na v)) (fold_left (unique_add py_eq) xs acc)
  = fold_left (unique_add py_eq) (List.filter (fun v => negb (is_na v)) xs)
      (List.filter (fun v => negb (is_na v)) acc).
Proof.
  revert acc. induction xs as [|x xs IH]; intros acc; simpl; [reflexivity|].
  rewrite IH. destruct (is_na x) eqn:Ex; simpl.
  - f_equal. unfold unique_add. destruct (existsb (py_eq x) acc); [reflexivity|].
    rewrite List.filter_app. simpl. rewrite Ex. simpl. now rewrite List.app_nil_r.
  - f_equal. unfold unique_add. rewrite existsb_present by exact Ex.
    destruct (existsb (py_eq x) acc); [reflexivity|].
    rewrite List.filter_app. simpl. now rewrite Ex.
Qed.

Lemma keyed_single (label : string) (df : list pyval)
  (keyed : list (list pyval * pyval)) :
  mapM (keyed_cell [label]) df = Ok keyed ->
  exists cells,
    record_column df label = Ok cells
    /\ map fst keyed = map (fun c => [c]) cells.
Proof.
  unfold record_column. revert keyed.
  induction df as [|r df IH]; intros keyed H.
  - injection H as <-. exists []. split; reflexivity.
  - cbn [mapM] in H.
    destruct (keyed_cell [label] r) as [[key cell]|] eqn:Er; [|discriminate].
    destruct (mapM (keyed_cell [label]) df) as [keyed'|]; [|discriminate].
    injection H as <-. destruct (IH keyed' eq_refl) as (cells & Hc & Hk).
    unfold keyed_cell in Er. cbn [mapM] in Er.
    destruct (record_item r label) as [x|] eqn:Ex; [|discriminate].
    cbn [mbind result_bind] in Er.
    destruct (record_item r "OCCURRENCES"); [|discriminate].
    cbn [mbind result_bind] in Er. injection Er as <- <-.
    exists (x :: cells). cbn [mapM]. rewrite Ex, Hc. cbn [map fst]. now rewrite Hk.
Qed.

Lemma map_fst_filter_present (keyed : list (list pyval * pyval)) (cells : list pyval) :
  map fst keyed = map (fun c => [c]) cells ->
  map fst (List.filter key_present keyed)
  = map (fun c => [c]) (List.filter (fun v => negb (is_na v)) cells).
Proof.
  revert cells. induction keyed as [|[k c] keyed IH]; intros [|x cells] H;
    try discriminate; [reflexivity|].
  cbn [map fst] in H. injection H as -> H.
  cbn [List.filter]. unfold key_present at 1. cbn [fst existsb].
  rewrite orb_false_r. destruct (is_na x); simpl; now rewrite (IH cells H).
Qed.

(** The groups of one column are as many as its distinct values that are
    not missing. *)
Lemma groups_count (sort_keys : list (list pyval) -> list (list pyval))
  (plus : pyval -> pyval -> pyval) (label : string) (df : list pyval)
  (sums : list (list pyval * pyval)) (n : nat) :
  (forall l, Permutation (sort_keys l) l) ->
  groupby_sum key_eq sort_keys plus [label] df = Ok sums ->
  nunique py_eq label df = Ok n ->
  List.length sums = n.
Proof.
  intros Hsort Hg Hn. unfold groupby_sum, groupby in Hg.
  destruct (grouped_cells [label] df) as [entries|] eqn:Eg; [|discriminate].
  cbn [mbind result_bind] in Hg. injection Hg as <-.
  apply grouped_cells_inv in Eg as (keyed & Hk & _ & ->).
  destruct (keyed_single label df keyed Hk) as (cells & Hc & Hf).
  unfold nunique, options, unique in Hn. rewrite Hc in Hn.
  cbn [mbind result_bind] in Hn.
  destruct (forallb hashable cells); [|discriminate].
  cbn [mbind result_bind] in Hn. injection Hn as <-.
  rewrite !List.length_map, (Permutation_length (Hsort _)).
  rewrite (map_fst_filter_present keyed cells Hf).
  unfold unique_by.
  rewrite (unique_fold_single _ []), List.length_map.
  now rewrite (unique_fold_present cells []).
Qed.

End Counting.

(** X18: the number of groups of a chart grouped by one column equals the
    metric of that column ([nunique]): the "Unique Tests" metric is the
    number of slices of the test-name chart, rows with a missing test name
    being left out of both. *)
Theorem groups_match_nunique (py_eq : pyval -> pyval -> bool)
  (key_eq : list pyval -> list pyval -> bool)
  (sort_keys : list (list pyval) -> list (list pyval))
  (plus : pyval -> pyval -> pyval) (df : list pyval)
  (sums : list (list pyval * pyval)) (n : nat) :
  (forall a b, key_eq [a] [b] = py_eq a b) ->
  (forall a b, py_eq a b = true -> is_na a = is_na b) ->
  (forall l, Permutation (sort_keys l) l) ->
  test_occurrences key_eq sort_keys plus df = Ok sums ->
  nunique py_eq "TEST_NAME" df = Ok n ->
  List.length sums = n.
Proof.
  intros H1 H2 Hsort Hg Hn.
  exact (groups_count py_eq key_eq H1 H2 sort_keys plus "TEST_NAME" df sums n
           Hsort Hg Hn).
Qed.

Lemma atom_eq_na (a b : pyval) : atom_eq a b = true -> is_na a = is_na b.
Proof. intros H. now rewrite (atom_eq_eq a b H). Qed.

Lemma groups_match_nunique_witness :
  test_occurrences atom_key_eq (@rev (list pyval)) int_plus three_records
  = Ok [([PStr "unique"], PInt 1); ([PStr "not_null"], PInt 4)]
  /\ nunique atom_eq "TEST_NAME" three_records = Ok 2
  /\ List.length [([PStr "unique"], PInt 1); ([PStr "not_null"], PInt 4)] = 2.
Proof.
  assert (Hg : test_occurrences atom_key_eq (@rev (list pyval)) int_plus three_records
               = Ok [([PStr "unique"], PInt 1); ([PStr "not_null"], PInt 4)])
    by (vm_compute; reflexivity).
  assert (Hn : nunique atom_eq "TEST_NAME" three_records = Ok 2)
    by (vm_compute; reflexivity).
  split; [exact Hg|]. split; [exact Hn|].
  apply (groups_match_nunique atom_eq atom_key_eq (@rev (list pyval)) int_plus
           three_records _ 2); try assumption.
  - intros a b. simpl. apply andb_true_r.
  - exact atom_eq_na.
  - intros l. apply Permutation_sym, Permutation_rev.
Defined.
